(** * s002 -> Azure PostgreSQL synchronisation engine (sync_engine.py)

    A shallow embedding of [sync_engine.py]: the two stores are finite maps
    from table names to row lists, the Python code is written in a small
    state-and-exception monad over a [world] that holds both stores, the
    currently open connection handles and a trace of what the program did
    (connections, statements, commits, log lines). *)

From Stdlib Require Import ZArith List Lia.
From stdpp Require Import gmap strings list sorting.

(** ** Rows and tables *)

(** A column value as the drivers hand it over. *)
Inductive value :=
| NULL
| Int (n : Z)
| Text (s : string)
| Bit (b : bool).

(** A fetched row: [row[0]] is the primary key ([TradeId] / [trade_id]),
    the remaining 23 (FX trades) or 31 (FX options) columns follow in the
    order of the SELECT list, which is also the order of the INSERT list. *)
Record record := Row { TradeId : Z; columns : list value }.

(** The two entity types synchronised by [main]. *)
Inductive entity := FXTrade | FXOptionTrade.

Definition SOURCE_TABLE (e : entity) : string :=
  match e with
  | FXTrade => "tblFXTrade"%string
  | FXOptionTrade => "tblFXOptionTrade"%string
  end.

Definition TARGET_TABLE (e : entity) : string :=
  match e with
  | FXTrade => "gzc_fx_trade"%string
  | FXOptionTrade => "gzc_fx_option_trade"%string
  end.

(** [class SyncConfig]: only the option the synchronisation reads.
    [BATCH_SIZE = int(os.getenv('BATCH_SIZE', '1000'))] is any integer. *)
Record SyncConfig := Config { BATCH_SIZE : Z }.

Definition default_config : SyncConfig := {| BATCH_SIZE := 1000%Z |}.

(** ** Exceptions, handles and the trace *)

Inductive exn :=
| ConnectionError       (* pyodbc.connect / psycopg2.connect failed *)
| QueryError            (* a statement was rejected by the store *)
| UniqueViolation.      (* primary-key collision of a plain INSERT *)

Inductive result (A : Type) :=
| Ok (a : A)
| Raise (e : exn).
Arguments Ok {A} a.
Arguments Raise {A} e.

Inductive handle := SqlConn | SqlCursor | PgConn | PgCursor.

Global Instance handle_eq_dec : EqDecision handle.
Proof. solve_decision. Defined.

(** The statements the program submits.  [SELECT_rows_IN] carries the
    parameter tuple bound to the [?] placeholders; [INSERT_page] is one
    [cursor.execute] of a page of [INSERT ... ON CONFLICT (trade_id) DO NOTHING]
    statements joined by [;]. *)
Inductive statement :=
| SELECT_ids (tbl : string)
| SELECT_rows_IN (tbl : string) (params : list Z)
| INSERT_page (tbl : string) (page : list record)
| SELECT_COUNT (tbl : string).

(** The log lines that carry information (banners and timestamps are left out). *)
Inductive message :=
| SYNCING (e : entity)
| Source_records (n : nat)
| Target_records (n : nat)
| Missing_records (n : nat)
| Inserted (n : nat)
| Final_count (n : nat)
| EXACT_MATCH
| MISMATCH (expected got : nat)
| ALL_SYNCS_COMPLETED_SUCCESSFULLY
| SYNC_COMPLETED_WITH_WARNINGS
| SYNC_FAILED (e : exn).

Inductive event :=
| Connect (h : handle)
| Close (h : handle)
| Execute (h : handle) (s : statement)
| Commit
| Log (m : message).

(** ** The world *)

Record world := World {
  max_parameters : nat;                  (* most parameters SQL Server takes in one statement *)
  s002 : gmap string (list record);      (* SQL Server tables (read only) *)
  azure : gmap string (list record);     (* PostgreSQL tables, as committed *)
  sql_server_up : bool;                  (* can a session be established? *)
  postgres_up : bool;
  pg_txn : gmap string (list record);    (* tables as seen by the open PostgreSQL transaction *)
  open_handles : list handle;            (* connections and cursors not yet closed *)
  trace : list event                     (* what happened, oldest first *)
}.

Definition emit (ev : event) (w : world) : world :=
  {| max_parameters := max_parameters w; s002 := s002 w; azure := azure w; sql_server_up := sql_server_up w;
     postgres_up := postgres_up w; pg_txn := pg_txn w;
     open_handles := open_handles w; trace := trace w ++ [ev] |}.

Definition set_pg_txn (t : gmap string (list record)) (w : world) : world :=
  {| max_parameters := max_parameters w; s002 := s002 w; azure := azure w; sql_server_up := sql_server_up w;
     postgres_up := postgres_up w; pg_txn := t;
     open_handles := open_handles w; trace := trace w |}.

Definition set_azure (t : gmap string (list record)) (w : world) : world :=
  {| max_parameters := max_parameters w; s002 := s002 w; azure := t; sql_server_up := sql_server_up w;
     postgres_up := postgres_up w; pg_txn := pg_txn w;
     open_handles := open_handles w; trace := trace w |}.

Definition set_open_handles (hs : list handle) (w : world) : world :=
  {| max_parameters := max_parameters w; s002 := s002 w; azure := azure w; sql_server_up := sql_server_up w;
     postgres_up := postgres_up w; pg_txn := pg_txn w;
     open_handles := hs; trace := trace w |}.

(** ** The monad: state passing with exceptions *)

Definition M (A : Type) : Type := world -> result A * world.

Definition ret {A} (a : A) : M A := fun w => (Ok a, w).

Definition bind {A B} (c : M A) (k : A -> M B) : M B :=
  fun w =>
    match c w with
    | (Ok a, w1) => k a w1
    | (Raise e, w1) => (Raise e, w1)
    end.

Notation "x <~ c ;; k" := (bind c (fun x => k))
  (at level 100, c at next level, right associativity, only parsing).

(** [try: body finally: fin]: [fin] runs on both exits of [body]; an
    exception of [fin] replaces the outcome of [body]. *)
Definition try_finally {A} (body : M A) (fin : M unit) : M A :=
  fun w =>
    match body w with
    | (r, w1) =>
        match fin w1 with
        | (Ok _, w2) => (r, w2)
        | (Raise e, w2) => (Raise e, w2)
        end
    end.

Definition logger (m : message) : M unit :=
  fun w => (Ok tt, emit (Log m) w).

(** ** The two stores *)

(** What a plain INSERT and an INSERT with [ON CONFLICT (trade_id) DO NOTHING]
    do when the key of the new row is already in the table. *)
Inductive conflict_action := RAISE | DO_NOTHING.

Definition keys (t : list record) : list Z := TradeId <$> t.

(** [set(row[0] for row in rows)]. *)
Definition ids (t : list record) : gset Z := list_to_set (keys t).

(** One INSERT statement against a table whose primary key is the first column. *)
Definition pg_insert (oc : conflict_action) (t : list record) (r : record)
  : result (list record) :=
  if bool_decide (TradeId r ∈ keys t) then
    match oc with
    | DO_NOTHING => Ok t
    | RAISE => Raise UniqueViolation
    end
  else Ok (t ++ [r]).

(** The statements of one page, executed in order; the first error stops it. *)
Fixpoint pg_insert_all (oc : conflict_action) (t : list record) (page : list record)
  : result (list record) :=
  match page with
  | [] => Ok t
  | r :: rest =>
      match pg_insert oc t r with
      | Ok t1 => pg_insert_all oc t1 rest
      | Raise e => Raise e
      end
  end.

(** [ORDER BY TradeId]. *)
Definition by_TradeId (r1 r2 : record) : Prop := (TradeId r1 ≤ TradeId r2)%Z.

Global Instance by_TradeId_dec r1 r2 : Decision (by_TradeId r1 r2).
Proof. unfold by_TradeId. apply _. Defined.

(** [SELECT ... FROM tbl WHERE TradeId IN (params) ORDER BY TradeId]. *)
Definition rows_in (params : list Z) (t : list record) : list record :=
  merge_sort by_TradeId (filter (λ r, TradeId r ∈ params) t).

(** ** class DatabaseConnector *)

Definition get_sql_server_connection (readonly : bool) : M unit :=
  fun w =>
    if sql_server_up w
    then (Ok tt, emit (Connect SqlConn) (set_open_handles (SqlConn :: open_handles w) w))
    else (Raise ConnectionError, w).

(** A new PostgreSQL session starts its transaction from the committed tables. *)
Definition get_postgres_connection : M unit :=
  fun w =>
    if postgres_up w
    then (Ok tt, emit (Connect PgConn)
                   (set_pg_txn (azure w) (set_open_handles (PgConn :: open_handles w) w)))
    else (Raise ConnectionError, w).

(** [conn.cursor()]. *)
Definition cursor (h : handle) : M unit :=
  fun w => (Ok tt, set_open_handles (h :: open_handles w) w).

(** Remove the first occurrence of a handle. *)
Fixpoint release (h : handle) (hs : list handle) : list handle :=
  match hs with
  | [] => []
  | h' :: rest => if bool_decide (h' = h) then rest else h' :: release h rest
  end.

(** [cursor.close()] / [conn.close()]; closing the PostgreSQL connection
    drops whatever its transaction has not committed. *)
Definition close (h : handle) : M unit :=
  fun w =>
    let w1 := emit (Close h) (set_open_handles (release h (open_handles w)) w) in
    (Ok tt, match h with PgConn => set_pg_txn ∅ w1 | _ => w1 end).

(** [pg_conn.commit()]. *)
Definition commit : M unit :=
  fun w => (Ok tt, emit Commit (set_azure (pg_txn w) w)).

(** ** psycopg2.extras.execute_batch *)

(** [_paginate(seq, page_size)] for a positive page size: full pages of
    [page_size] items and a last non-empty page with the remainder. *)
Fixpoint paginate_loop {A} (fuel page_size : nat) (seq : list A) : list (list A) :=
  match fuel with
  | O => []
  | S fuel' =>
      match seq with
      | [] => []
      | _ => take page_size seq :: paginate_loop fuel' page_size (drop page_size seq)
      end
  end.

Definition paginate {A} (seq : list A) (page_size : nat) : list (list A) :=
  paginate_loop (length seq) page_size seq.

(** One [cur.execute] of the joined INSERT statements of a page. *)
Definition execute_insert_page (tbl : string) (page : list record) : M unit :=
  fun w =>
    let w1 := emit (Execute PgCursor (INSERT_page tbl page)) w in
    match pg_txn w !! tbl with
    | None => (Raise QueryError, w1)
    | Some t =>
        match pg_insert_all DO_NOTHING t page with
        | Ok t1 => (Ok tt, set_pg_txn (<[tbl := t1]> (pg_txn w)) w1)
        | Raise e => (Raise e, w1)
        end
    end.

Fixpoint execute_pages (tbl : string) (pages : list (list record)) : M unit :=
  match pages with
  | [] => ret tt
  | page :: rest => _ <~ execute_insert_page tbl page ;; execute_pages tbl rest
  end.

(** [execute_batch(cur, sql, argslist, page_size)]: one [cur.execute] per
    page.  With a page size below 1, [_paginate] hands over an empty page
    first, and executing the empty statement is rejected by the driver. *)
Definition execute_batch (tbl : string) (argslist : list record) (page_size : Z) : M unit :=
  if (page_size <=? 0)%Z
  then fun w => (Raise QueryError, emit (Execute PgCursor (INSERT_page tbl [])) w)
  else execute_pages tbl (paginate argslist (Z.to_nat page_size)).

(** ** class FXTradeSync / class FXOptionTradeSync

    The two classes are the same code up to the table names and the column
    lists; [e] selects the class. *)

(** [cursor.execute("SELECT TradeId FROM ..."); set(row[0] for row in cursor.fetchall())] *)
Definition get_source_ids (e : entity) : M (gset Z) :=
  fun w =>
    let w1 := emit (Execute SqlCursor (SELECT_ids (SOURCE_TABLE e))) w in
    match s002 w !! SOURCE_TABLE e with
    | None => (Raise QueryError, w1)
    | Some t => (Ok (ids t), w1)
    end.

Definition get_target_ids (e : entity) : M (gset Z) :=
  fun w =>
    let w1 := emit (Execute PgCursor (SELECT_ids (TARGET_TABLE e))) w in
    match pg_txn w !! TARGET_TABLE e with
    | None => (Raise QueryError, w1)
    | Some t => (Ok (ids t), w1)
    end.

(** One [?] per missing id, bound to [tuple(missing_ids)], in a single query.
    SQL Server rejects a statement that carries more parameters than it
    accepts ([max_parameters], 2100 in its documentation). *)
Definition fetch_missing_records (e : entity) (missing_ids : gset Z) : M (list record) :=
  if bool_decide (missing_ids = ∅) then ret []
  else
    fun w =>
      let params := elements missing_ids in
      let w1 := emit (Execute SqlCursor (SELECT_rows_IN (SOURCE_TABLE e) params)) w in
      if bool_decide (length params ≤ max_parameters w) then
        match s002 w !! SOURCE_TABLE e with
        | None => (Raise QueryError, w1)
        | Some t => (Ok (rows_in params t), w1)
        end
      else (Raise QueryError, w1).

Definition insert_records (cfg : SyncConfig) (e : entity) (records : list record) : M nat :=
  match records with
  | [] => ret 0
  | _ =>
      _ <~ execute_batch (TARGET_TABLE e) records (BATCH_SIZE cfg) ;;
      ret (length records)
  end.

(** [SELECT COUNT( * ) FROM target; fetchone()[0]]. *)
Definition select_count (e : entity) : M nat :=
  fun w =>
    let w1 := emit (Execute PgCursor (SELECT_COUNT (TARGET_TABLE e))) w in
    match pg_txn w !! TARGET_TABLE e with
    | None => (Raise QueryError, w1)
    | Some t => (Ok (length t), w1)
    end.

(** The [try:] block of [sync]. *)
Definition sync_body (cfg : SyncConfig) (e : entity) : M bool :=
  source_ids <~ get_source_ids e ;;
  target_ids <~ get_target_ids e ;;
  _ <~ logger (Source_records (size source_ids)) ;;
  _ <~ logger (Target_records (size target_ids)) ;;
  let missing_ids := source_ids ∖ target_ids in
  _ <~ logger (Missing_records (size missing_ids)) ;;
  _ <~ (if bool_decide (missing_ids = ∅) then ret tt
        else
          records <~ fetch_missing_records e missing_ids ;;
          inserted <~ insert_records cfg e records ;;
          _ <~ commit ;;
          logger (Inserted inserted)) ;;
  final_count <~ select_count e ;;
  _ <~ logger (Final_count final_count) ;;
  if Nat.eqb final_count (size source_ids)
  then _ <~ logger EXACT_MATCH ;; ret true
  else _ <~ logger (MISMATCH (size source_ids) final_count) ;; ret false.

(** The [finally:] block of [sync]. *)
Definition sync_finally : M unit :=
  _ <~ close SqlCursor ;;
  _ <~ close SqlConn ;;
  _ <~ close PgCursor ;;
  close PgConn.

Definition sync (cfg : SyncConfig) (e : entity) : M bool :=
  _ <~ logger (SYNCING e) ;;
  _ <~ get_sql_server_connection true ;;
  _ <~ cursor SqlCursor ;;
  _ <~ get_postgres_connection ;;
  _ <~ cursor PgCursor ;;
  try_finally (sync_body cfg e) sync_finally.

(** ** main

    The process exit status: [sys.exit(1)] in the handler and after a run
    with warnings, 0 when [main] returns. *)
Definition main (cfg : SyncConfig) (w : world) : Z * world :=
  let run : M bool :=
    r1 <~ sync cfg FXTrade ;;
    r2 <~ sync cfg FXOptionTrade ;;
    let success := r1 && r2 in
    _ <~ logger (if success then ALL_SYNCS_COMPLETED_SUCCESSFULLY
                 else SYNC_COMPLETED_WITH_WARNINGS) ;;
    ret success in
  match run w with
  | (Raise e, w1) => (1%Z, emit (Log (SYNC_FAILED e)) w1)
  | (Ok success, w1) => (if success then 0%Z else 1%Z, w1)
  end.

(** ** Vocabulary of the properties *)

(** What an [INSERT ... ON CONFLICT (trade_id) DO NOTHING] leaves behind, and
    a whole batch of them. *)
Definition insert_do_nothing (t : list record) (r : record) : list record :=
  if bool_decide (TradeId r ∈ keys t) then t else t ++ [r].

Definition load (t : list record) (records : list record) : list record :=
  foldl insert_do_nothing t records.

(** The rows of a table that carry a given primary key. *)
Definition rows_with (k : Z) (t : list record) : list record :=
  filter (λ r, TradeId r = k) t.

(** The quantities of one reconciliation, from the two tables it starts with. *)
Definition missing_of (src tgt : list record) : gset Z := ids src ∖ ids tgt.

Definition fetched (src tgt : list record) : list record :=
  rows_in (elements (missing_of src tgt)) src.

Definition target_after (src tgt : list record) : list record :=
  if bool_decide (missing_of src tgt = ∅) then tgt else load tgt (fetched src tgt).

Definition verdict (src tgt' : list record) : bool :=
  Nat.eqb (length tgt') (size (ids src)).

(** The events a successful [sync] appends to the trace. *)
Definition page_events (tbl : string) (pages : list (list record)) : list event :=
  (λ page, Execute PgCursor (INSERT_page tbl page)) <$> pages.

Definition transfer_events (cfg : SyncConfig) (e : entity) (src tgt : list record)
  : list event :=
  if bool_decide (missing_of src tgt = ∅) then []
  else Execute SqlCursor (SELECT_rows_IN (SOURCE_TABLE e) (elements (missing_of src tgt)))
       :: page_events (TARGET_TABLE e)
            (paginate (fetched src tgt) (Z.to_nat (BATCH_SIZE cfg)))
       ++ [Commit; Log (Inserted (length (fetched src tgt)))].

Definition body_events (cfg : SyncConfig) (e : entity) (src tgt : list record)
  : list event :=
  [Execute SqlCursor (SELECT_ids (SOURCE_TABLE e));
   Execute PgCursor (SELECT_ids (TARGET_TABLE e));
   Log (Source_records (size (ids src)));
   Log (Target_records (size (ids tgt)));
   Log (Missing_records (size (missing_of src tgt)))]
  ++ transfer_events cfg e src tgt
  ++ [Execute PgCursor (SELECT_COUNT (TARGET_TABLE e));
      Log (Final_count (length (target_after src tgt)));
      Log (if verdict src (target_after src tgt) then EXACT_MATCH
           else MISMATCH (size (ids src)) (length (target_after src tgt)))].

Definition finally_events : list event :=
  [Close SqlCursor; Close SqlConn; Close PgCursor; Close PgConn].

(** Reading a trace: what was appended between two worlds, the rows handed
    to INSERT statements, and the parameter tuples of the fetch queries. *)
Definition events_since (w w' : world) : list event :=
  drop (length (trace w)) (trace w').

Definition inserted_rows (evs : list event) : list record :=
  flat_map (λ ev, match ev with
                  | Execute _ (INSERT_page _ page) => page
                  | _ => []
                  end) evs.

Definition fetch_params (evs : list event) : list (list Z) :=
  flat_map (λ ev, match ev with
                  | Execute _ (SELECT_rows_IN _ params) => [params]
                  | _ => []
                  end) evs.

(** Everything but the trace coincides. *)
Definition same_state (w1 w2 : world) : Prop :=
  max_parameters w1 = max_parameters w2 ∧
  s002 w1 = s002 w2 ∧ azure w1 = azure w2 ∧
  sql_server_up w1 = sql_server_up w2 ∧ postgres_up w1 = postgres_up w2 ∧
  pg_txn w1 = pg_txn w2 ∧ open_handles w1 = open_handles w2.

(** How one entity type ends. *)
Inductive outcome := CONVERGED | MISMATCHED | FAILED.

Definition outcome_of (r : result bool) : outcome :=
  match r with
  | Ok true => CONVERGED
  | Ok false => MISMATCHED
  | Raise _ => FAILED
  end.

(** A computation that leaves the set of open handles as it found it. *)
Definition keeps_handles {A} (c : M A) : Prop :=
  ∀ w, open_handles (snd (c w)) = open_handles w.

(** ** Sample stores *)

Definition trade (k : Z) : record := Row k [Text "EUR"; NULL].

Definition stores (src_fx src_opt : list record) (tgt_fx tgt_opt : option (list record))
  (sql_up pg_up : bool) : world :=
  {| max_parameters := 2100;
     s002 := {[ SOURCE_TABLE FXTrade := src_fx; SOURCE_TABLE FXOptionTrade := src_opt ]};
     azure := from_option (λ t, {[ TARGET_TABLE FXTrade := t ]}) ∅ tgt_fx
              ∪ from_option (λ t, {[ TARGET_TABLE FXOptionTrade := t ]}) ∅ tgt_opt;
     sql_server_up := sql_up; postgres_up := pg_up;
     pg_txn := ∅; open_handles := []; trace := [] |}.

(** Source ids {1,2,3,4,5}, target ids {1,3}. *)
Definition five_world : world :=
  stores [trade 5; trade 1; trade 4; trade 2; trade 3] [trade 7]
         (Some [trade 1; trade 3]) (Some []) true true.

(** Source ids {1,2}, target ids {1,2,3}: a stale extra row in the target. *)
Definition stale_world : world :=
  stores [trade 1; trade 2] [trade 1; trade 2]
         (Some [trade 1; trade 2; trade 3]) (Some [trade 1; trade 2; trade 3]) true true.

(** PostgreSQL cannot be reached. *)
Definition pg_down_world : world :=
  stores [trade 1; trade 2] [trade 7] (Some [trade 1]) (Some []) true false.

(** The FX trade table is missing in the target, the option table is fine. *)
Definition no_fx_table_world : world :=
  stores [trade 1; trade 2] [trade 7] None (Some [trade 7]) true true.

(** Source ids {1,2}, target ids {1}: one row is missing. *)
Definition one_missing_world : world :=
  stores [trade 1; trade 2] [trade 7] (Some [trade 1]) (Some []) true true.

(** A source of 2101 rows and an empty target. *)
Definition many_rows_world : world :=
  stores (trade <$> seqZ 1 2101) [] (Some []) (Some []) true true.

(** 2101 missing ids, one more than SQL Server accepts as parameters of a statement. *)
Definition many_ids : gset Z := list_to_set (seqZ 1 2101).

(** ** The spec's sentences that the code does not satisfy, as stated *)

(** Two runs in a row both end CONVERGED and the second inserts nothing. *)
Definition idempotence_claim (cfg : SyncConfig) (e : entity) (w : world) : Prop :=
  ∃ w1 w2,
    sync cfg e w = (Ok true, w1) ∧ sync cfg e w1 = (Ok true, w2) ∧
    inserted_rows (events_since w1 w2) = [].

(** A failure of the first entity type leaves the next one attempted. *)
Definition isolation_claim (cfg : SyncConfig) (w : world) : Prop :=
  outcome_of (fst (sync cfg FXTrade w)) = FAILED →
  In (Log (SYNCING FXOptionTrade)) (trace (snd (main cfg w))).

(** The final target is the same whatever the two batch sizes are. *)
Definition chunking_claim (cfg1 cfg2 : SyncConfig) (e : entity) (w : world) : Prop :=
  azure (snd (sync cfg1 e w)) = azure (snd (sync cfg2 e w)).

(** No fetch query carries more than [limit] parameters. *)
Definition fetch_within_limit (limit : nat) (e : entity) (missing_ids : gset Z)
  (w : world) : Prop :=
  Forall (λ params, length params ≤ limit)
    (fetch_params (events_since w (snd (fetch_missing_records e missing_ids w)))).

(** ** Vocabulary of the further properties *)

(** The statements executed on the SQL Server cursor, which of them only
    read, and the pages handed to INSERT. *)
Definition source_statements (evs : list event) : list statement :=
  flat_map (λ ev, match ev with
                  | Execute SqlCursor st => [st]
                  | _ => []
                  end) evs.

Definition is_select (st : statement) : Prop :=
  match st with
  | INSERT_page _ _ => False
  | _ => True
  end.

Definition inserted_pages (evs : list event) : list (list record) :=
  flat_map (λ ev, match ev with
                  | Execute _ (INSERT_page _ page) => [page]
                  | _ => []
                  end) evs.

(** ** test_connection.py

    The connectivity check run before a sync.  Its log lines are left out;
    [SELECT @@VERSION] / [SELECT version()] read no table and are answered by
    any open session, so they leave the world as it is. *)

(** [try: body except Exception as e: handler]. *)
Definition try_except {A} (body : M A) (handler : exn -> M A) : M A :=
  fun w =>
    match body w with
    | (Ok a, w1) => (Ok a, w1)
    | (Raise e, w1) => handler e w1
    end.

(** [cursor.execute("SELECT COUNT( * ) FROM tbl"); cursor.fetchone()[0]] on
    the SQL Server cursor and on the PostgreSQL cursor. *)
Definition sql_count (tbl : string) : M nat :=
  fun w =>
    let w1 := emit (Execute SqlCursor (SELECT_COUNT tbl)) w in
    match s002 w !! tbl with
    | None => (Raise QueryError, w1)
    | Some t => (Ok (length t), w1)
    end.

Definition pg_count (tbl : string) : M nat :=
  fun w =>
    let w1 := emit (Execute PgCursor (SELECT_COUNT tbl)) w in
    match pg_txn w !! tbl with
    | None => (Raise QueryError, w1)
    | Some t => (Ok (length t), w1)
    end.

Definition select_version : M unit := ret tt.

Definition test_sql_server : M bool :=
  try_except
    (_ <~ get_sql_server_connection true ;;
     _ <~ cursor SqlCursor ;;
     _ <~ select_version ;;
     fx_count <~ sql_count "tblFXTrade" ;;
     fxopt_count <~ sql_count "tblFXOptionTrade" ;;
     _ <~ close SqlCursor ;;
     _ <~ close SqlConn ;;
     ret true)
    (fun _ => ret false).

Definition test_postgres : M bool :=
  try_except
    (_ <~ get_postgres_connection ;;
     _ <~ cursor PgCursor ;;
     _ <~ select_version ;;
     fx_count <~ pg_count "gzc_fx_trade" ;;
     fxopt_count <~ pg_count "gzc_fx_option_trade" ;;
     _ <~ close PgCursor ;;
     _ <~ close PgConn ;;
     ret true)
    (fun _ => ret false).

(** The script: both tests are run, the exit status is 0 when both passed. *)
Definition test_connection_main (w : world) : Z * world :=
  let run : M bool :=
    sql_ok <~ test_sql_server ;;
    pg_ok <~ test_postgres ;;
    ret (sql_ok && pg_ok) in
  match run w with
  | (Ok true, w1) => (0%Z, w1)
  | (_, w1) => (1%Z, w1)
  end.

(** What the two tests look at. *)
Definition sql_server_ready (w : world) : Prop :=
  sql_server_up w = true ∧
  is_Some (s002 w !! "tblFXTrade"%string) ∧
  is_Some (s002 w !! "tblFXOptionTrade"%string).

Definition postgres_ready (w : world) : Prop :=
  postgres_up w = true ∧
  is_Some (azure w !! "gzc_fx_trade"%string) ∧
  is_Some (azure w !! "gzc_fx_option_trade"%string).

(** * Proofs *)

(** Symbolic execution of the monadic code on a world given field by field. *)
Ltac run_step :=
  cbn [execute_pages release fst snd];
  cbv beta iota zeta delta
      [bind ret logger emit set_pg_txn set_azure set_open_handles
       max_parameters s002 azure sql_server_up postgres_up pg_txn open_handles trace
       get_sql_server_connection get_postgres_connection cursor close commit
       try_finally get_source_ids get_target_ids select_count
       execute_insert_page sync_finally].
Ltac run := repeat (progress run_step).

(** The scenarios of the specification, run on the model. *)
Example paginate_five_by_two :
  paginate [trade 1; trade 2; trade 3; trade 4; trade 5] 2
  = [[trade 1; trade 2]; [trade 3; trade 4]; [trade 5]].
Proof. reflexivity. Qed.

Example plain_insert_collides :
  pg_insert RAISE [trade 1; trade 3] (trade 3) = Raise UniqueViolation.
Proof. by vm_compute. Qed.

Example do_nothing_insert_skips :
  pg_insert DO_NOTHING [trade 1; trade 3] (trade 3) = Ok [trade 1; trade 3].
Proof. by vm_compute. Qed.

Example five_world_converges :
  fst (sync default_config FXTrade five_world) = Ok true ∧
  azure (snd (sync default_config FXTrade five_world)) !! TARGET_TABLE FXTrade
  = Some [trade 1; trade 3; trade 2; trade 4; trade 5] ∧
  open_handles (snd (sync default_config FXTrade five_world)) = [].
Proof. by vm_compute. Qed.

Example five_world_exit_status : fst (main default_config five_world) = 0%Z.
Proof. by vm_compute. Qed.

Example stale_world_exit_status : fst (main default_config stale_world) = 1%Z.
Proof. by vm_compute. Qed.

Example too_many_missing_ids_raise :
  fst (sync default_config FXTrade many_rows_world) = Raise QueryError.
Proof. vm_compute. reflexivity. Qed.

Section paginate_facts.
Context {A : Type}.
Implicit Types (seq : list A) (n fuel : nat).

Lemma concat_paginate_loop n : 0 < n → ∀ fuel seq,
  length seq ≤ fuel → concat (paginate_loop fuel n seq) = seq.
Proof.
  intros Hn. induction fuel as [|fuel IH]; intros seq Hlen.
  - destruct seq; [done|simpl in Hlen; lia].
  - destruct seq as [|x seq]; [done|].
    cbn [paginate_loop concat]. rewrite IH, take_drop; [done|].
    rewrite length_drop. simpl in *. lia.
Qed.

Lemma concat_paginate seq n : 0 < n → concat (paginate seq n) = seq.
Proof. intros Hn. by apply concat_paginate_loop. Qed.

Lemma paginate_loop_pages n : 0 < n → ∀ fuel seq,
  Forall (λ page, 0 < length page ≤ n) (paginate_loop fuel n seq).
Proof.
  intros Hn. induction fuel as [|fuel IH]; intros seq; [constructor|].
  destruct seq as [|x seq]; [constructor|].
  cbn [paginate_loop]. constructor; [|apply IH].
  rewrite length_take. simpl. lia.
Qed.

Lemma paginate_pages seq n :
  0 < n → Forall (λ page, 0 < length page ≤ n) (paginate seq n).
Proof. intros Hn. by apply paginate_loop_pages. Qed.
End paginate_facts.

Section insert_facts.
Implicit Types (t page : list record) (r : record) (k : Z).

Lemma pg_insert_do_nothing t r :
  pg_insert DO_NOTHING t r = Ok (insert_do_nothing t r).
Proof. unfold pg_insert, insert_do_nothing. by case_bool_decide. Qed.

Lemma pg_insert_all_do_nothing page : ∀ t,
  pg_insert_all DO_NOTHING t page = Ok (load t page).
Proof.
  induction page as [|r page IH]; intros t; simpl; [done|].
  rewrite pg_insert_do_nothing. apply IH.
Qed.

Lemma keys_app t1 t2 : keys (t1 ++ t2) = keys t1 ++ keys t2.
Proof. unfold keys. apply fmap_app. Qed.

Lemma insert_do_nothing_ids t r : ids (insert_do_nothing t r) = ids t ∪ {[TradeId r]}.
Proof.
  unfold insert_do_nothing, ids. case_bool_decide as Hin.
  - apply (elem_of_list_to_set (C:=gset Z)) in Hin. set_solver.
  - rewrite keys_app, list_to_set_app_L. simpl. set_solver.
Qed.

Lemma load_ids page : ∀ t, ids (load t page) = ids t ∪ ids page.
Proof.
  induction page as [|r page IH]; intros t; simpl.
  - unfold ids at 3. simpl. set_solver.
  - unfold load in *. simpl. rewrite IH, insert_do_nothing_ids.
    unfold ids at 4. simpl. fold (ids page). set_solver.
Qed.

Lemma insert_do_nothing_NoDup t r :
  NoDup (keys t) → NoDup (keys (insert_do_nothing t r)).
Proof.
  intros Hnd. unfold insert_do_nothing. case_bool_decide as Hin; [done|].
  rewrite keys_app. apply NoDup_app. split_and!; [done| |].
  - intros x Hx Hx'. apply list_elem_of_singleton in Hx'. by subst.
  - apply NoDup_singleton.
Qed.

Lemma load_NoDup page : ∀ t, NoDup (keys t) → NoDup (keys (load t page)).
Proof.
  induction page as [|r page IH]; intros t Hnd; [done|].
  apply IH. by apply insert_do_nothing_NoDup.
Qed.

Lemma load_extends page : ∀ t,
  ∃ new, load t page = t ++ new ∧ Forall (λ r, TradeId r ∉ keys t) new.
Proof.
  induction page as [|r page IH]; intros t.
  - exists []. by rewrite app_nil_r.
  - destruct (IH (insert_do_nothing t r)) as (new & Hnew & Hfresh).
    unfold load in *. simpl. rewrite Hnew. revert Hfresh.
    unfold insert_do_nothing. case_bool_decide as Hin; intros Hfresh.
    + by exists new.
    + exists (r :: new). rewrite <- app_assoc. split; [done|].
      constructor; [done|]. eapply Forall_impl; [exact Hfresh|].
      intros r' Hr' Hk. apply Hr'. rewrite keys_app. apply elem_of_app. by left.
Qed.

Lemma rows_with_insert_present t r k :
  k ∈ keys t → rows_with k (insert_do_nothing t r) = rows_with k t.
Proof.
  intros Hk. unfold insert_do_nothing. case_bool_decide as Hin; [done|].
  unfold rows_with. rewrite filter_app, filter_cons_False, filter_nil, app_nil_r; [done|].
  intros Heq. subst k. done.
Qed.

Lemma keys_insert_do_nothing_mono t r k :
  k ∈ keys t → k ∈ keys (insert_do_nothing t r).
Proof.
  intros Hk. unfold insert_do_nothing. case_bool_decide; [done|].
  rewrite keys_app. apply elem_of_app. by left.
Qed.

Lemma rows_with_load_present page : ∀ t k,
  k ∈ keys t → rows_with k (load t page) = rows_with k t.
Proof.
  induction page as [|r page IH]; intros t k Hk; [done|].
  unfold load in *. simpl. rewrite IH by by apply keys_insert_do_nothing_mono.
  by apply rows_with_insert_present.
Qed.

Lemma length_NoDup_keys t : NoDup (keys t) → length t = size (ids t).
Proof.
  intros Hnd. unfold ids. rewrite size_list_to_set by done.
  unfold keys. by rewrite length_fmap.
Qed.
End insert_facts.

Section set_facts.
Implicit Types (src tgt t : list record) (k : Z).

Lemma difference_empty_subseteq (X Y : gset Z) : X ∖ Y = ∅ ↔ X ⊆ Y.
Proof.
  split.
  - intros Hd k Hk. destruct (decide (k ∈ Y)) as [|Hn]; [done|].
    assert (k ∈ X ∖ Y) as Hin by (apply elem_of_difference; done).
    rewrite Hd in Hin. by apply not_elem_of_empty in Hin.
  - intros Hsub. apply set_eq. intros k.
    rewrite elem_of_difference. split; [|by intros ?%not_elem_of_empty].
    intros [Hk Hn]. destruct Hn. by apply Hsub.
Qed.

Lemma elem_of_ids k t : k ∈ ids t ↔ ∃ r, r ∈ t ∧ TradeId r = k.
Proof.
  unfold ids, keys. rewrite elem_of_list_to_set, list_elem_of_fmap.
  naive_solver.
Qed.

Lemma elem_of_rows_in r params t :
  r ∈ rows_in params t ↔ r ∈ t ∧ TradeId r ∈ params.
Proof.
  unfold rows_in. rewrite merge_sort_Permutation, list_elem_of_filter.
  naive_solver.
Qed.

Lemma fetched_ids src tgt : ids (fetched src tgt) = missing_of src tgt.
Proof.
  apply set_eq. intros k. unfold fetched.
  rewrite elem_of_ids. split.
  - intros (r & Hr & Hk). apply elem_of_rows_in in Hr as [_ Hin].
    apply elem_of_elements in Hin. by subst k.
  - intros Hk. assert (k ∈ ids src) as Hsrc.
    { unfold missing_of in Hk. set_solver. }
    apply elem_of_ids in Hsrc as (r & Hr & Hrk). exists r. split; [|done].
    apply elem_of_rows_in. split; [done|]. apply elem_of_elements. by subst k.
Qed.

Lemma target_after_ids src tgt : ids (target_after src tgt) = ids tgt ∪ ids src.
Proof.
  unfold target_after. case_bool_decide as Hmiss.
  - apply difference_empty_subseteq in Hmiss. set_solver.
  - rewrite load_ids, fetched_ids. unfold missing_of.
    apply set_eq. intros k. rewrite !elem_of_union, elem_of_difference.
    destruct (decide (k ∈ ids tgt)); tauto.
Qed.

Lemma target_after_NoDup src tgt :
  NoDup (keys tgt) → NoDup (keys (target_after src tgt)).
Proof.
  intros Hnd. unfold target_after. case_bool_decide; [done|]. by apply load_NoDup.
Qed.

Lemma missing_of_target_after src tgt :
  missing_of src (target_after src tgt) = ∅.
Proof. unfold missing_of. rewrite target_after_ids. set_solver. Qed.

Lemma target_after_fixpoint src tgt :
  target_after src (target_after src tgt) = target_after src tgt.
Proof.
  unfold target_after at 1. by rewrite bool_decide_eq_true_2 by apply missing_of_target_after.
Qed.

Lemma verdict_target_after src tgt :
  NoDup (keys tgt) →
  verdict src (target_after src tgt) = bool_decide (ids tgt ⊆ ids src).
Proof.
  intros Hnd. unfold verdict.
  rewrite (length_NoDup_keys (target_after src tgt)) by by apply target_after_NoDup.
  rewrite target_after_ids, (union_comm_L (ids tgt)), size_union_alt.
  case_bool_decide as Hsub.
  - apply difference_empty_subseteq in Hsub. rewrite Hsub, size_empty.
    apply Nat.eqb_eq. lia.
  - apply Nat.eqb_neq. intros Heq.
    assert (size (ids tgt ∖ ids src) = 0) as Hz by lia.
    apply size_empty_iff in Hz. apply Hsub.
    apply difference_empty_subseteq. by apply leibniz_equiv.
Qed.
End set_facts.

Section store_facts.
Implicit Types (w : world) (t : list record) (tbl : string).

Lemma execute_pages_ok tbl pages : ∀ lim s a su pu p h tr t,
  p !! tbl = Some t →
  execute_pages tbl pages (World lim s a su pu p h tr) =
    (Ok tt, World lim s a su pu (<[tbl := load t (concat pages)]> p) h
              (tr ++ page_events tbl pages)).
Proof.
  induction pages as [|page pages IH]; intros lim s a su pu p h tr t Hp.
  - run. simpl. rewrite insert_id by done. by rewrite app_nil_r.
  - run. rewrite Hp, pg_insert_all_do_nothing. run.
    erewrite IH by apply lookup_insert_eq.
    rewrite insert_insert_eq. unfold load. simpl. rewrite foldl_app.
    by rewrite <- app_assoc.
Qed.

Lemma execute_batch_ok tbl records n lim s a su pu p h tr t :
  (0 < n)%Z → p !! tbl = Some t →
  execute_batch tbl records n (World lim s a su pu p h tr) =
    (Ok tt, World lim s a su pu (<[tbl := load t records]> p) h
              (tr ++ page_events tbl (paginate records (Z.to_nat n)))).
Proof.
  intros Hn Hp. unfold execute_batch.
  destruct (Z.leb_spec n 0) as [?|_]; [lia|].
  erewrite execute_pages_ok by done.
  rewrite concat_paginate by lia. done.
Qed.

Lemma insert_records_ok cfg e records lim s a su pu p h tr t :
  (0 < BATCH_SIZE cfg)%Z → p !! TARGET_TABLE e = Some t →
  insert_records cfg e records (World lim s a su pu p h tr) =
    (Ok (length records),
     World lim s a su pu (<[TARGET_TABLE e := load t records]> p) h
       (tr ++ page_events (TARGET_TABLE e) (paginate records (Z.to_nat (BATCH_SIZE cfg))))).
Proof.
  intros Hn Hp. destruct records as [|r records].
  - unfold insert_records, ret. simpl. rewrite insert_id by done. by rewrite app_nil_r.
  - unfold insert_records. run. erewrite execute_batch_ok by done. done.
Qed.
End store_facts.

Section sync_facts.
Implicit Types (w : world) (src tgt : list record) (e : entity).

Lemma sync_body_ok cfg e lim s a su pu p h tr src tgt :
  missing_of src tgt = ∅ ∨
    ((0 < BATCH_SIZE cfg)%Z ∧ size (missing_of src tgt) ≤ lim) →
  s !! SOURCE_TABLE e = Some src →
  p !! TARGET_TABLE e = Some tgt →
  sync_body cfg e (World lim s a su pu p h tr) =
    (Ok (verdict src (target_after src tgt)),
     World lim s
       (if bool_decide (missing_of src tgt = ∅) then a
        else <[TARGET_TABLE e := target_after src tgt]> p)
       su pu
       (if bool_decide (missing_of src tgt = ∅) then p
        else <[TARGET_TABLE e := target_after src tgt]> p)
       h (tr ++ body_events cfg e src tgt)).
Proof.
  intros Hn Hs Hp. unfold sync_body, body_events, transfer_events, target_after.
  run. rewrite Hs, Hp. fold (missing_of src tgt).
  case_bool_decide as Hmiss.
  - run. rewrite Hp. unfold verdict.
    destruct (Nat.eqb _ _); run; simpl; by rewrite <- !app_assoc.
  - destruct Hn as [?|[Hn Hlim]]; [done|].
    unfold fetch_missing_records. rewrite bool_decide_eq_false_2 by done.
    run. rewrite bool_decide_eq_true_2 by exact Hlim.
    rewrite Hs. fold (fetched src tgt).
    erewrite insert_records_ok by done.
    run. rewrite lookup_insert_eq. unfold verdict.
    destruct (Nat.eqb _ _); run; simpl; repeat (rewrite <- app_assoc; simpl); done.
Qed.

Lemma sync_ok cfg e lim s a p h tr src tgt :
  missing_of src tgt = ∅ ∨
    ((0 < BATCH_SIZE cfg)%Z ∧ size (missing_of src tgt) ≤ lim) →
  s !! SOURCE_TABLE e = Some src →
  a !! TARGET_TABLE e = Some tgt →
  sync cfg e (World lim s a true true p h tr) =
    (Ok (verdict src (target_after src tgt)),
     World lim s
       (if bool_decide (missing_of src tgt = ∅) then a
        else <[TARGET_TABLE e := target_after src tgt]> a)
       true true ∅ h
       (tr ++ [Log (SYNCING e); Connect SqlConn; Connect PgConn]
           ++ body_events cfg e src tgt ++ finally_events)).
Proof.
  intros Hn Hs Ha. unfold sync. run.
  erewrite sync_body_ok by done. run.
  by rewrite <- !app_assoc.
Qed.

Lemma azure_after_lookup e (a : gmap string (list record)) src tgt :
  a !! TARGET_TABLE e = Some tgt →
  (if bool_decide (missing_of src tgt = ∅) then a
   else <[TARGET_TABLE e := target_after src tgt]> a) !! TARGET_TABLE e
  = Some (target_after src tgt).
Proof.
  intros Ha. unfold target_after. case_bool_decide; [done|]. apply lookup_insert_eq.
Qed.

Lemma events_since_app lim s a su pu p h tr lim' s' a' su' pu' p' h' evs :
  events_since (World lim s a su pu p h tr) (World lim' s' a' su' pu' p' h' (tr ++ evs)) = evs.
Proof. unfold events_since. simpl. apply drop_app_length. Qed.

Lemma inserted_rows_app evs1 evs2 :
  inserted_rows (evs1 ++ evs2) = inserted_rows evs1 ++ inserted_rows evs2.
Proof. unfold inserted_rows. apply flat_map_app. Qed.

Lemma inserted_rows_page_events tbl pages :
  inserted_rows (page_events tbl pages) = concat pages.
Proof.
  induction pages as [|page pages IH]; [done|].
  change (page_events tbl (page :: pages))
    with ([Execute PgCursor (INSERT_page tbl page)] ++ page_events tbl pages).
  rewrite inserted_rows_app, IH. simpl. by rewrite app_nil_r.
Qed.

Lemma fetch_params_app evs1 evs2 :
  fetch_params (evs1 ++ evs2) = fetch_params evs1 ++ fetch_params evs2.
Proof. unfold fetch_params. apply flat_map_app. Qed.

Lemma fetch_params_page_events tbl pages : fetch_params (page_events tbl pages) = [].
Proof.
  induction pages as [|page pages IH]; [done|].
  change (page_events tbl (page :: pages))
    with ([Execute PgCursor (INSERT_page tbl page)] ++ page_events tbl pages).
  by rewrite fetch_params_app, IH.
Qed.
End sync_facts.

(** Which computations leave the open handles alone: everything inside the
    [try:] block of [sync]. *)
Section handle_facts.
Lemma keeps_ret {A} (a : A) : keeps_handles (ret a).
Proof. by intros w. Qed.

Lemma keeps_bind {A B} (c : M A) (k : A → M B) :
  keeps_handles c → (∀ a, keeps_handles (k a)) → keeps_handles (bind c k).
Proof.
  intros Hc Hk w. unfold bind. specialize (Hc w).
  destruct (c w) as [[x|ex] w1]; simpl in *; [|done].
  by rewrite Hk.
Qed.

Lemma keeps_logger m : keeps_handles (logger m).
Proof. by intros w. Qed.

Lemma keeps_commit : keeps_handles commit.
Proof. by intros w. Qed.

Lemma keeps_get_source_ids e : keeps_handles (get_source_ids e).
Proof. intros w. unfold get_source_ids. by destruct (s002 w !! _). Qed.

Lemma keeps_get_target_ids e : keeps_handles (get_target_ids e).
Proof. intros w. unfold get_target_ids. by destruct (pg_txn w !! _). Qed.

Lemma keeps_select_count e : keeps_handles (select_count e).
Proof. intros w. unfold select_count. by destruct (pg_txn w !! _). Qed.

Lemma keeps_fetch_missing_records e missing_ids :
  keeps_handles (fetch_missing_records e missing_ids).
Proof.
  intros w. unfold fetch_missing_records. case_bool_decide; [done|].
  cbv zeta. case_bool_decide; [|done]. by destruct (s002 w !! _).
Qed.

Lemma keeps_execute_insert_page tbl page : keeps_handles (execute_insert_page tbl page).
Proof.
  intros w. unfold execute_insert_page. destruct (pg_txn w !! tbl); [|done].
  by destruct (pg_insert_all _ _ _).
Qed.

Lemma keeps_execute_pages tbl pages : keeps_handles (execute_pages tbl pages).
Proof.
  induction pages as [|page pages IH]; [apply keeps_ret|].
  apply keeps_bind; [apply keeps_execute_insert_page|done].
Qed.

Lemma keeps_execute_batch tbl records n : keeps_handles (execute_batch tbl records n).
Proof.
  unfold execute_batch. destruct (n <=? 0)%Z; [by intros w|].
  apply keeps_execute_pages.
Qed.

Lemma keeps_insert_records cfg e records : keeps_handles (insert_records cfg e records).
Proof.
  destruct records as [|r records]; [apply keeps_ret|].
  apply keeps_bind; [apply keeps_execute_batch|intros; apply keeps_ret].
Qed.

Lemma keeps_sync_body cfg e : keeps_handles (sync_body cfg e).
Proof.
  unfold sync_body.
  repeat first
    [ apply keeps_bind; [|intros ?]
    | apply keeps_ret | apply keeps_logger | apply keeps_commit
    | apply keeps_get_source_ids | apply keeps_get_target_ids
    | apply keeps_select_count | apply keeps_fetch_missing_records
    | apply keeps_insert_records
    | case_bool_decide
    | match goal with |- keeps_handles (if ?b then _ else _) => destruct b end ].
Qed.

(** Once both connections are open, every exit of [sync] closes all four handles. *)
Lemma sync_releases_when_both_open cfg e w :
  sql_server_up w = true → postgres_up w = true →
  open_handles (snd (sync cfg e w)) = open_handles w.
Proof.
  intros Hsu Hpu. destruct w as [lim s a su pu p h tr]. simpl in *. subst su pu.
  unfold sync. run.
  match goal with
  | |- context [sync_body cfg e ?w0] =>
      pose proof (keeps_sync_body cfg e w0) as Hkeep;
      destruct (sync_body cfg e w0) as [r [lim1 s1 a1 su1 pu1 p1 h1 tr1]]
  end.
  simpl in Hkeep. subst h1. by run.
Qed.
End handle_facts.

(** * Every path of a run *)

Section sync_failure_paths.
Implicit Types (s a p : gmap string (list record)) (h : list handle) (tr : list event).

Lemma sync_sql_down cfg e lim s a pu p h tr :
  sync cfg e (World lim s a false pu p h tr)
  = (Raise ConnectionError, World lim s a false pu p h (tr ++ [Log (SYNCING e)])).
Proof. unfold sync. by run. Qed.

Lemma sync_pg_down cfg e lim s a p h tr :
  sync cfg e (World lim s a true false p h tr)
  = (Raise ConnectionError,
     World lim s a true false p (SqlCursor :: SqlConn :: h)
       (tr ++ [Log (SYNCING e); Connect SqlConn])).
Proof. unfold sync. run. by rewrite <- app_assoc. Qed.

Lemma sync_no_source_table cfg e lim s a p h tr :
  s !! SOURCE_TABLE e = None →
  sync cfg e (World lim s a true true p h tr)
  = (Raise QueryError,
     World lim s a true true ∅ h
       (tr ++ [Log (SYNCING e); Connect SqlConn; Connect PgConn;
               Execute SqlCursor (SELECT_ids (SOURCE_TABLE e))] ++ finally_events)).
Proof.
  intros Hs. unfold sync, sync_body. run. rewrite Hs. run.
  by rewrite <- !app_assoc.
Qed.

Lemma sync_no_target_table cfg e lim s a p h tr src :
  s !! SOURCE_TABLE e = Some src →
  a !! TARGET_TABLE e = None →
  sync cfg e (World lim s a true true p h tr)
  = (Raise QueryError,
     World lim s a true true ∅ h
       (tr ++ [Log (SYNCING e); Connect SqlConn; Connect PgConn;
               Execute SqlCursor (SELECT_ids (SOURCE_TABLE e));
               Execute PgCursor (SELECT_ids (TARGET_TABLE e))] ++ finally_events)).
Proof.
  intros Hs Ha. unfold sync, sync_body. run. rewrite Hs, Ha. run.
  by rewrite <- !app_assoc.
Qed.

Lemma fetched_nonempty src tgt : missing_of src tgt ≠ ∅ → fetched src tgt ≠ [].
Proof.
  intros Hmiss Hnil. apply Hmiss. rewrite <- fetched_ids, Hnil. done.
Qed.

Lemma sync_bad_batch_size cfg e lim s a p h tr src tgt :
  s !! SOURCE_TABLE e = Some src →
  a !! TARGET_TABLE e = Some tgt →
  missing_of src tgt ≠ ∅ →
  size (missing_of src tgt) ≤ lim →
  (BATCH_SIZE cfg ≤ 0)%Z →
  sync cfg e (World lim s a true true p h tr)
  = (Raise QueryError,
     World lim s a true true ∅ h
       (tr ++ [Log (SYNCING e); Connect SqlConn; Connect PgConn;
               Execute SqlCursor (SELECT_ids (SOURCE_TABLE e));
               Execute PgCursor (SELECT_ids (TARGET_TABLE e));
               Log (Source_records (size (ids src)));
               Log (Target_records (size (ids tgt)));
               Log (Missing_records (size (missing_of src tgt)));
               Execute SqlCursor
                 (SELECT_rows_IN (SOURCE_TABLE e) (elements (missing_of src tgt)));
               Execute PgCursor (INSERT_page (TARGET_TABLE e) [])]
            ++ finally_events)).
Proof.
  intros Hs Ha Hmiss Hlim Hn. unfold sync, sync_body. run. rewrite Hs, Ha.
  fold (missing_of src tgt). rewrite bool_decide_eq_false_2 by done.
  unfold fetch_missing_records. rewrite bool_decide_eq_false_2 by done.
  run. rewrite bool_decide_eq_true_2 by exact Hlim.
  rewrite Hs. fold (fetched src tgt).
  pose proof (fetched_nonempty src tgt Hmiss) as Hne.
  destruct (fetched src tgt) as [|r records]; [done|].
  unfold insert_records, execute_batch.
  destruct (Z.leb_spec (BATCH_SIZE cfg) 0) as [_|?]; [|lia].
  run. by rewrite <- !app_assoc.
Qed.
Lemma sync_too_many_parameters cfg e lim s a p h tr src tgt :
  s !! SOURCE_TABLE e = Some src →
  a !! TARGET_TABLE e = Some tgt →
  lim < size (missing_of src tgt) →
  sync cfg e (World lim s a true true p h tr)
  = (Raise QueryError,
     World lim s a true true ∅ h
       (tr ++ [Log (SYNCING e); Connect SqlConn; Connect PgConn;
               Execute SqlCursor (SELECT_ids (SOURCE_TABLE e));
               Execute PgCursor (SELECT_ids (TARGET_TABLE e));
               Log (Source_records (size (ids src)));
               Log (Target_records (size (ids tgt)));
               Log (Missing_records (size (missing_of src tgt)));
               Execute SqlCursor
                 (SELECT_rows_IN (SOURCE_TABLE e) (elements (missing_of src tgt)))]
            ++ finally_events)).
Proof.
  intros Hs Ha Hlim.
  assert (missing_of src tgt ≠ ∅) as Hmiss.
  { intros Hempty. rewrite Hempty, size_empty in Hlim. lia. }
  unfold sync, sync_body. run. rewrite Hs, Ha.
  fold (missing_of src tgt). rewrite bool_decide_eq_false_2 by done.
  unfold fetch_missing_records. rewrite bool_decide_eq_false_2 by done.
  run. rewrite bool_decide_eq_false_2.
  - run. by rewrite <- !app_assoc.
  - change (length (elements (missing_of src tgt))) with (size (missing_of src tgt)). lia.
Qed.
End sync_failure_paths.

Section sync_paths.
Implicit Types (s a p : gmap string (list record)) (h : list handle) (tr : list event).

Lemma source_statements_app evs1 evs2 :
  source_statements (evs1 ++ evs2) = source_statements evs1 ++ source_statements evs2.
Proof. unfold source_statements. apply flat_map_app. Qed.

Lemma source_statements_page_events tbl pages :
  source_statements (page_events tbl pages) = [].
Proof. induction pages as [|page pages IH]; [done|]. exact IH. Qed.

Lemma source_statements_sync_ok cfg e src tgt :
  Forall is_select
    (source_statements ([Log (SYNCING e); Connect SqlConn; Connect PgConn]
                          ++ body_events cfg e src tgt ++ finally_events)).
Proof.
  unfold body_events, transfer_events. rewrite !source_statements_app.
  case_bool_decide.
  - cbn. repeat constructor.
  - change (Execute SqlCursor ?st :: ?l ++ ?k) with ([Execute SqlCursor st] ++ l ++ k).
    rewrite !source_statements_app, source_statements_page_events.
    cbn. repeat constructor.
Qed.

(** Every way [sync] can end, on a world given field by field: the source,
    the reachability flags and the old trace stay; the committed target is
    either untouched or has gained the fetched rows in the table of [e]. *)
Lemma sync_paths cfg e lim s a su pu p h tr :
  ∃ r a' p' h' evs,
    sync cfg e (World lim s a su pu p h tr) = (r, World lim s a' su pu p' h' (tr ++ evs)) ∧
    Forall is_select (source_statements evs) ∧
    ((∃ ex, r = Raise ex ∧ a' = a) ∨
     (∃ src tgt,
        s !! SOURCE_TABLE e = Some src ∧ a !! TARGET_TABLE e = Some tgt ∧
        su = true ∧ pu = true ∧
        r = Ok (verdict src (target_after src tgt)) ∧
        a' = (if bool_decide (missing_of src tgt = ∅) then a
              else <[TARGET_TABLE e := target_after src tgt]> a))).
Proof.
  destruct su.
  2: { rewrite sync_sql_down. eexists _, _, _, _, _. split; [reflexivity|].
       split; [cbn; constructor|]. left. by eexists. }
  destruct pu.
  2: { rewrite sync_pg_down. eexists _, _, _, _, _. split; [reflexivity|].
       split; [cbn; constructor|]. left. by eexists. }
  destruct (s !! SOURCE_TABLE e) as [src|] eqn:Hs.
  2: { rewrite sync_no_source_table by done. eexists _, _, _, _, _.
       split; [reflexivity|]. split; [cbn; repeat constructor|]. left. by eexists. }
  destruct (a !! TARGET_TABLE e) as [tgt|] eqn:Ha.
  2: { erewrite sync_no_target_table by done. eexists _, _, _, _, _.
       split; [reflexivity|]. split; [cbn; repeat constructor|]. left. by eexists. }
  destruct (decide (missing_of src tgt = ∅)) as [Hmiss|Hmiss];
    [|destruct (le_lt_dec (size (missing_of src tgt)) lim) as [Hlim|Hlim];
      [destruct (Z_lt_le_dec 0 (BATCH_SIZE cfg)) as [Hn|Hn]|]].
  - rewrite (sync_ok cfg e lim s a p h tr src tgt) by auto. eexists _, _, _, _, _.
    split; [reflexivity|]. split; [apply source_statements_sync_ok|].
    right. by exists src, tgt.
  - rewrite (sync_ok cfg e lim s a p h tr src tgt) by auto. eexists _, _, _, _, _.
    split; [reflexivity|]. split; [apply source_statements_sync_ok|].
    right. by exists src, tgt.
  - rewrite (sync_bad_batch_size cfg e lim s a p h tr src tgt) by done.
    eexists _, _, _, _, _. split; [reflexivity|].
    split; [cbn; repeat constructor|]. left. by eexists.
  - rewrite (sync_too_many_parameters cfg e lim s a p h tr src tgt) by done.
    eexists _, _, _, _, _. split; [reflexivity|].
    split; [cbn; repeat constructor|]. left. by eexists.
Qed.
End sync_paths.

Section run_facts.
Implicit Types (s a p : gmap string (list record)) (h : list handle) (tr : list event).

Lemma main_unfold cfg w :
  main cfg w =
  match sync cfg FXTrade w with
  | (Raise ex, w1) => (1%Z, emit (Log (SYNC_FAILED ex)) w1)
  | (Ok r1, w1) =>
      match sync cfg FXOptionTrade w1 with
      | (Raise ex, w2) => (1%Z, emit (Log (SYNC_FAILED ex)) w2)
      | (Ok r2, w2) =>
          (if r1 && r2 then 0%Z else 1%Z,
           emit (Log (if r1 && r2 then ALL_SYNCS_COMPLETED_SUCCESSFULLY
                      else SYNC_COMPLETED_WITH_WARNINGS)) w2)
      end
  end.
Proof.
  unfold main, bind, ret, logger.
  destruct (sync cfg FXTrade w) as [[r1|ex1] w1]; [|done].
  by destruct (sync cfg FXOptionTrade w1) as [[r2|ex2] w2].
Qed.

Lemma load_extends_from page : ∀ t,
  ∃ new, load t page = t ++ new ∧
         Forall (λ r, r ∈ page ∧ TradeId r ∉ keys t) new.
Proof.
  induction page as [|r page IH]; intros t.
  - exists []. by rewrite app_nil_r.
  - destruct (IH (insert_do_nothing t r)) as (new & Hnew & Hfresh).
    unfold load in *. simpl. rewrite Hnew. revert Hfresh.
    unfold insert_do_nothing. case_bool_decide as Hin; intros Hfresh.
    + exists new. split; [done|]. eapply Forall_impl; [exact Hfresh|].
      intros r' [Hr' Hk]. split; [by right|done].
    + exists (r :: new). rewrite <- app_assoc. split; [done|].
      constructor; [split; [by left|done]|].
      eapply Forall_impl; [exact Hfresh|].
      intros r' [Hr' Hk]. split; [by right|].
      intros Hk'. apply Hk. rewrite keys_app. apply elem_of_app. by left.
Qed.

Lemma target_after_extends src tgt :
  ∃ new, target_after src tgt = tgt ++ new ∧
         Forall (λ r, r ∈ src ∧ TradeId r ∉ keys tgt) new.
Proof.
  unfold target_after. case_bool_decide.
  - exists []. by rewrite app_nil_r.
  - destruct (load_extends_from (fetched src tgt) tgt) as (new & Hnew & Hfrom).
    exists new. split; [done|]. eapply Forall_impl; [exact Hfrom|].
    intros r [Hr Hk]. split; [|done].
    unfold fetched in Hr. by apply elem_of_rows_in in Hr as [Hr _].
Qed.

(** What [sync] does to any committed table, on every path: rows are only
    ever appended, and unique keys stay unique. *)
Lemma sync_extends_tables cfg e w tbl t :
  azure w !! tbl = Some t →
  ∃ new, azure (snd (sync cfg e w)) !! tbl = Some (t ++ new) ∧
         (NoDup (keys t) → NoDup (keys (t ++ new))).
Proof.
  intros Ht. destruct w as [lim s a su pu p h tr]. cbn [azure] in Ht.
  destruct (sync_paths cfg e lim s a su pu p h tr)
    as (r & a' & p' & h' & evs & Hrun & _ & Hcases).
  rewrite Hrun. cbn [snd azure].
  destruct Hcases as [(ex & _ & ->)|(src & tgt & Hs & Ha & _ & _ & _ & ->)].
  - exists []. by rewrite app_nil_r.
  - case_bool_decide as Hmiss; [exists []; by rewrite app_nil_r|].
    destruct (decide (tbl = TARGET_TABLE e)) as [->|Hne].
    + rewrite lookup_insert_eq. simplify_eq.
      destruct (target_after_extends src t) as (new & Hnew & _).
      exists new. rewrite <- Hnew. split; [done|]. apply target_after_NoDup.
    + rewrite lookup_insert_ne by done. exists []. by rewrite app_nil_r.
Qed.

Lemma sync_keeps_flags cfg e w :
  sql_server_up (snd (sync cfg e w)) = sql_server_up w ∧
  postgres_up (snd (sync cfg e w)) = postgres_up w ∧
  s002 (snd (sync cfg e w)) = s002 w.
Proof.
  destruct w as [lim s a su pu p h tr].
  destruct (sync_paths cfg e lim s a su pu p h tr) as (r & a' & p' & h' & evs & Hrun & _).
  by rewrite Hrun.
Qed.

Lemma events_since_extends w w' evs :
  trace w' = trace w ++ evs → events_since w w' = evs.
Proof. intros Htr. unfold events_since. rewrite Htr. apply drop_app_length. Qed.

Lemma sync_trace cfg e w :
  ∃ evs, trace (snd (sync cfg e w)) = trace w ++ evs ∧
         Forall is_select (source_statements evs).
Proof.
  destruct w as [lim s a su pu p h tr].
  destruct (sync_paths cfg e lim s a su pu p h tr)
    as (r & a' & p' & h' & evs & Hrun & Hsel & _).
  rewrite Hrun. by exists evs.
Qed.
Lemma sync_keeps_limit cfg e w :
  max_parameters (snd (sync cfg e w)) = max_parameters w.
Proof.
  destruct w as [lim s a su pu p h tr].
  destruct (sync_paths cfg e lim s a su pu p h tr) as (r & a' & p' & h' & evs & Hrun & _).
  by rewrite Hrun.
Qed.

Lemma sync_other_tables cfg e w tbl :
  tbl ≠ TARGET_TABLE e →
  azure (snd (sync cfg e w)) !! tbl = azure w !! tbl.
Proof.
  intros Hne. destruct w as [lim s a su pu p h tr].
  destruct (sync_paths cfg e lim s a su pu p h tr)
    as (r & a' & p' & h' & evs & Hrun & _ & Hcases).
  rewrite Hrun. cbn [snd azure].
  destruct Hcases as [(ex & _ & ->)|(src & tgt & _ & _ & _ & _ & _ & ->)]; [done|].
  case_bool_decide; [done|]. by rewrite lookup_insert_ne.
Qed.

(** What [sync] returns and what it leaves in its own table depend on the
    source, the reachability of the stores, the parameter limit and the
    committed contents of that table only. *)
Lemma sync_depends_on_own_table cfg e w1 w2 :
  max_parameters w1 = max_parameters w2 →
  s002 w1 = s002 w2 →
  sql_server_up w1 = sql_server_up w2 →
  postgres_up w1 = postgres_up w2 →
  azure w1 !! TARGET_TABLE e = azure w2 !! TARGET_TABLE e →
  fst (sync cfg e w1) = fst (sync cfg e w2) ∧
  azure (snd (sync cfg e w1)) !! TARGET_TABLE e
  = azure (snd (sync cfg e w2)) !! TARGET_TABLE e.
Proof.
  destruct w1 as [lim s a1 su pu p1 h1 tr1], w2 as [lim2 s2 a2 su2 pu2 p2 h2 tr2].
  intros Hl Hs' Hsu' Hpu' Ha.
  cbn [max_parameters s002 sql_server_up postgres_up azure] in Hl, Hs', Hsu', Hpu', Ha.
  subst lim2 s2 su2 pu2.
  destruct su; [|by rewrite !sync_sql_down].
  destruct pu; [|by rewrite !sync_pg_down].
  destruct (s !! SOURCE_TABLE e) as [src|] eqn:Hs;
    [|by rewrite !sync_no_source_table].
  destruct (a1 !! TARGET_TABLE e) as [tgt|] eqn:Ha1; symmetry in Ha.
  2: { rewrite !(sync_no_target_table cfg e lim s _ _ _ _ src) by done.
       cbn [fst snd azure]. split; [done|congruence]. }
  destruct (decide (missing_of src tgt = ∅)) as [Hmiss|Hmiss];
    [|destruct (le_lt_dec (size (missing_of src tgt)) lim) as [Hlim|Hlim];
      [destruct (Z_lt_le_dec 0 (BATCH_SIZE cfg)) as [Hn|Hn]|]].
  - rewrite !(sync_ok cfg e lim s _ _ _ _ src tgt) by auto.
    cbn [fst snd azure]. split; [done|]. by rewrite !azure_after_lookup.
  - rewrite !(sync_ok cfg e lim s _ _ _ _ src tgt) by auto.
    cbn [fst snd azure]. split; [done|]. by rewrite !azure_after_lookup.
  - rewrite !(sync_bad_batch_size cfg e lim s _ _ _ _ src tgt) by done.
    cbn [fst snd azure]. split; [done|]. congruence.
  - rewrite !(sync_too_many_parameters cfg e lim s _ _ _ _ src tgt) by done.
    cbn [fst snd azure]. split; [done|]. congruence.
Qed.

Lemma fetch_missing_records_events e missing_ids w :
  events_since w (snd (fetch_missing_records e missing_ids w)) =
    (if bool_decide (missing_ids = ∅) then []
     else [Execute SqlCursor (SELECT_rows_IN (SOURCE_TABLE e) (elements missing_ids))]).
Proof.
  destruct w as [lim s a su pu p h tr]. unfold fetch_missing_records.
  case_bool_decide.
  - unfold ret, events_since. cbn [snd trace]. apply drop_all.
  - cbv beta zeta. cbn [max_parameters s002].
    case_bool_decide; [destruct (s !! SOURCE_TABLE e)|];
      cbn [snd emit max_parameters s002 azure sql_server_up postgres_up pg_txn
           open_handles trace];
      apply events_since_app.
Qed.
End run_facts.

Section connection_test_facts.
Implicit Types (s a p : gmap string (list record)) (h : list handle) (tr : list event).

Ltac run_test :=
  unfold test_sql_server, test_postgres, try_except, select_version,
         sql_count, pg_count;
  run.

(** The outcome of [test_sql_server] on a world given field by field. *)
Lemma test_sql_server_paths lim s a su pu p h tr :
  ∃ b h' evs,
    test_sql_server (World lim s a su pu p h tr)
      = (Ok b, World lim s a su pu p h' (tr ++ evs)) ∧
    (b = true ↔ sql_server_ready (World lim s a su pu p h tr)) ∧
    h' = (if su && negb b then SqlCursor :: SqlConn :: h else h).
Proof.
  unfold sql_server_ready. cbn [sql_server_up s002].
  destruct su.
  2: { run_test. exists false, h, []. rewrite app_nil_r.
       split; [done|]. split; [|done]. split; [done|]. by intros [? _]. }
  destruct (s !! "tblFXTrade"%string) as [t1|] eqn:H1.
  2: { run_test. rewrite H1. run. eexists false, _, _. rewrite <- !app_assoc.
       split; [reflexivity|]. split; [|done]. split; [done|].
       intros (_ & [? ?] & _). done. }
  destruct (s !! "tblFXOptionTrade"%string) as [t2|] eqn:H2.
  2: { run_test. rewrite H1. run. rewrite H2. run.
       eexists false, _, _. rewrite <- !app_assoc.
       split; [reflexivity|]. split; [|done]. split; [done|].
       intros (_ & _ & [? ?]). done. }
  run_test. rewrite H1. run. rewrite H2. run.
  eexists true, _, _. rewrite <- !app_assoc.
  split; [reflexivity|]. split; [|done]. split; [|done]. intros _. by eauto.
Qed.

Lemma test_postgres_paths lim s a su pu p h tr :
  ∃ b p' h' evs,
    test_postgres (World lim s a su pu p h tr)
      = (Ok b, World lim s a su pu p' h' (tr ++ evs)) ∧
    (b = true ↔ postgres_ready (World lim s a su pu p h tr)) ∧
    h' = (if pu && negb b then PgCursor :: PgConn :: h else h).
Proof.
  unfold postgres_ready. cbn [postgres_up azure].
  destruct pu.
  2: { run_test. exists false, p, h, []. rewrite app_nil_r.
       split; [done|]. split; [|done]. split; [done|]. by intros [? _]. }
  destruct (a !! "gzc_fx_trade"%string) as [t1|] eqn:H1.
  2: { run_test. rewrite H1. run. eexists false, _, _, _. rewrite <- !app_assoc.
       split; [reflexivity|]. split; [|done]. split; [done|].
       intros (_ & [? ?] & _). done. }
  destruct (a !! "gzc_fx_option_trade"%string) as [t2|] eqn:H2.
  2: { run_test. rewrite H1. run. rewrite H2. run.
       eexists false, _, _, _. rewrite <- !app_assoc.
       split; [reflexivity|]. split; [|done]. split; [done|].
       intros (_ & _ & [? ?]). done. }
  run_test. rewrite H1. run. rewrite H2. run.
  eexists true, _, _, _. rewrite <- !app_assoc.
  split; [reflexivity|]. split; [|done]. split; [|done]. intros _. by eauto.
Qed.
End connection_test_facts.

(** * The claims *)

(** C1. A batch handed to [insert_records] never raises on a primary key that
    the target already holds and never duplicates it: the insert returns
    normally, every row of the table from before is still there in its place,
    the rows carrying an already-present key are exactly those from before,
    unique keys stay unique, and the rows added carry keys that were absent. *)
Theorem insert_records_conflict_noop cfg e records w t :
  (0 < BATCH_SIZE cfg)%Z →
  pg_txn w !! TARGET_TABLE e = Some t →
  ∃ w' t',
    insert_records cfg e records w = (Ok (length records), w') ∧
    pg_txn w' !! TARGET_TABLE e = Some t' ∧
    (∀ k, k ∈ keys t → rows_with k t' = rows_with k t) ∧
    (NoDup (keys t) → NoDup (keys t')) ∧
    (∃ new, t' = t ++ new ∧ Forall (λ r, TradeId r ∉ keys t) new).
Proof.
  intros Hn Ht. destruct w as [lim s a su pu p h tr]. simpl in Ht.
  eexists _, (load t records). split; [by apply insert_records_ok|].
  split; [apply lookup_insert_eq|].
  split; [intros k Hk; by apply rows_with_load_present|].
  split; [apply load_NoDup|apply load_extends].
Qed.

Lemma insert_records_conflict_noop_witness :
  ∃ w' t',
    insert_records default_config FXTrade [trade 1; trade 2; trade 3]
      (set_pg_txn (azure five_world) five_world) = (Ok 3, w') ∧
    pg_txn w' !! TARGET_TABLE FXTrade = Some t' ∧
    (∀ k, k ∈ keys [trade 1; trade 3] → rows_with k t' = rows_with k [trade 1; trade 3]) ∧
    (NoDup (keys [trade 1; trade 3]) → NoDup (keys t')) ∧
    (∃ new, t' = [trade 1; trade 3] ++ new
            ∧ Forall (λ r, TradeId r ∉ keys [trade 1; trade 3]) new).
Proof.
  apply (insert_records_conflict_noop default_config FXTrade
           [trade 1; trade 2; trade 3]
           (set_pg_txn (azure five_world) five_world) [trade 1; trade 3]).
  - reflexivity.
  - vm_compute. reflexivity.
Defined.

(** C2, as stated, fails: when the FX trade sync raises (its target table
    cannot be queried), the FX option sync is never started. *)
Lemma isolation_claim_fails_on_query_error :
  ¬ isolation_claim default_config no_fx_table_world.
Proof.
  intros Hclaim.
  assert (In (Log (SYNCING FXOptionTrade))
            (trace (snd (main default_config no_fx_table_world)))) as Hin
    by (apply Hclaim; vm_compute; reflexivity).
  vm_compute in Hin.
  repeat (destruct Hin as [Hin|Hin]; [discriminate Hin|]). exact Hin.
Qed.

(** C2, amended.  An entity type that ends in MISMATCH does not keep the next
    one from running, and the run then exits with status 1; an entity type
    whose sync raises ends the run: [main] logs the failure and exits with
    status 1, and nothing else happens after the failed sync. *)
Theorem main_continues_after_mismatch_only cfg w :
  (∀ b w1, sync cfg FXTrade w = (Ok b, w1) →
     ∃ r2 w2,
       sync cfg FXOptionTrade w1 = (r2, w2) ∧
       (b = false → fst (main cfg w) = 1%Z) ∧
       snd (main cfg w) =
         match r2 with
         | Ok b2 => emit (Log (if b && b2 then ALL_SYNCS_COMPLETED_SUCCESSFULLY
                               else SYNC_COMPLETED_WITH_WARNINGS)) w2
         | Raise e2 => emit (Log (SYNC_FAILED e2)) w2
         end) ∧
  (∀ e1 w1, sync cfg FXTrade w = (Raise e1, w1) →
     main cfg w = (1%Z, emit (Log (SYNC_FAILED e1)) w1)).
Proof.
  unfold main, bind, ret, logger. split.
  - intros b w1 H1. rewrite H1.
    destruct (sync cfg FXOptionTrade w1) as [[b2|e2] w2] eqn:H2.
    + exists (Ok b2), w2. split; [done|]. split; [by intros ->|done].
    + exists (Raise e2), w2. split; [done|]. split; done.
  - intros e1 w1 H1. by rewrite H1.
Qed.

Lemma main_continues_after_mismatch_only_witness :
  main default_config no_fx_table_world
  = (1%Z, emit (Log (SYNC_FAILED QueryError))
            (snd (sync default_config FXTrade no_fx_table_world))).
Proof.
  apply (proj2 (main_continues_after_mismatch_only default_config no_fx_table_world)
           QueryError).
  vm_compute. reflexivity.
Defined.

(** C3. The rows fetched and inserted are fixed by the set difference
    [source_ids - target_ids].  When the difference is empty nothing is
    fetched, inserted or committed, whatever the batch size; the count and the
    comparison with the size of the source id set still run and give the
    result.  When it is not empty, the one fetch query is parameterised by its
    elements; if SQL Server accepts that many parameters and the batch size is
    positive, the rows inserted are the source rows carrying those ids, and
    otherwise (the query is rejected, or the batch is) the run raises with
    nothing inserted and the target as it was. *)
Theorem sync_transfers_set_difference cfg e w src tgt :
  sql_server_up w = true →
  postgres_up w = true →
  s002 w !! SOURCE_TABLE e = Some src →
  azure w !! TARGET_TABLE e = Some tgt →
  let missing := ids src ∖ ids tgt in
  let records := rows_in (elements missing) src in
  (missing = ∅ →
   ∃ w',
     sync cfg e w = (Ok (Nat.eqb (length tgt) (size (ids src))), w') ∧
     azure w' = azure w ∧
     events_since w w' =
       [Log (SYNCING e); Connect SqlConn; Connect PgConn;
        Execute SqlCursor (SELECT_ids (SOURCE_TABLE e));
        Execute PgCursor (SELECT_ids (TARGET_TABLE e));
        Log (Source_records (size (ids src)));
        Log (Target_records (size (ids tgt)));
        Log (Missing_records 0);
        Execute PgCursor (SELECT_COUNT (TARGET_TABLE e));
        Log (Final_count (length tgt));
        Log (if Nat.eqb (length tgt) (size (ids src)) then EXACT_MATCH
             else MISMATCH (size (ids src)) (length tgt));
        Close SqlCursor; Close SqlConn; Close PgCursor; Close PgConn]) ∧
  (missing ≠ ∅ →
   size missing ≤ max_parameters w →
   (0 < BATCH_SIZE cfg)%Z →
   ∃ w',
     sync cfg e w
       = (Ok (Nat.eqb (length (load tgt records)) (size (ids src))), w') ∧
     azure w' = <[TARGET_TABLE e := load tgt records]> (azure w) ∧
     fetch_params (events_since w w') = [elements missing] ∧
     inserted_rows (events_since w w') = records ∧
     ids records = missing) ∧
  (max_parameters w < size missing ∨
   (missing ≠ ∅ ∧ (BATCH_SIZE cfg ≤ 0)%Z) →
   ∃ w',
     sync cfg e w = (Raise QueryError, w') ∧
     azure w' = azure w ∧
     fetch_params (events_since w w') = [elements missing] ∧
     inserted_rows (events_since w w') = []).
Proof.
  intros Hsu Hpu Hs Ha missing records.
  destruct w as [lim s a su pu p h tr]. simpl in *. subst su pu.
  fold (missing_of src tgt) in missing. fold (fetched src tgt) in records.
  subst missing records.
  split; [|split].
  - intros Hmiss. rewrite (sync_ok cfg e lim s a p h tr src tgt) by auto.
    unfold body_events, transfer_events; unfold target_after, verdict.
    rewrite !bool_decide_eq_true_2 by done.
    eexists. split; [reflexivity|]. split; [reflexivity|].
    rewrite events_since_app, Hmiss, size_empty. done.
  - intros Hmiss Hlim Hn. rewrite (sync_ok cfg e lim s a p h tr src tgt) by auto.
    unfold body_events, transfer_events; unfold target_after, verdict.
    rewrite !bool_decide_eq_false_2 by done.
    eexists. split; [reflexivity|]. split; [reflexivity|].
    rewrite events_since_app.
    rewrite !fetch_params_app, !inserted_rows_app.
    change (Execute SqlCursor ?s :: ?l) with ([Execute SqlCursor s] ++ l).
    rewrite !fetch_params_app, !inserted_rows_app.
    rewrite fetch_params_page_events, inserted_rows_page_events, concat_paginate by lia.
    cbn [fetch_params inserted_rows flat_map finally_events app].
    rewrite ?app_nil_r. split; [done|]. split; [done|]. apply fetched_ids.
  - intros Hcase.
    destruct (le_lt_dec (size (missing_of src tgt)) lim) as [Hlim|Hlim].
    + destruct Hcase as [?|[Hmiss Hn]]; [lia|].
      rewrite (sync_bad_batch_size cfg e lim s a p h tr src tgt) by done.
      eexists. split; [reflexivity|]. split; [reflexivity|].
      rewrite events_since_app. by cbn.
    + rewrite (sync_too_many_parameters cfg e lim s a p h tr src tgt) by done.
      eexists. split; [reflexivity|]. split; [reflexivity|].
      rewrite events_since_app. by cbn.
Qed.

Lemma sync_transfers_set_difference_witness :
  ∃ w',
    sync default_config FXTrade five_world = (Ok true, w') ∧
    fetch_params (events_since five_world w') = [[5; 4; 2]%Z] ∧
    inserted_rows (events_since five_world w') = [trade 2; trade 4; trade 5].
Proof.
  destruct (sync_transfers_set_difference default_config FXTrade five_world
              [trade 5; trade 1; trade 4; trade 2; trade 3] [trade 1; trade 3])
    as (_ & Hsome & _); [reflexivity | reflexivity | by vm_compute | by vm_compute |].
  destruct Hsome as (w' & Hrun & _ & Hparams & Hrows & _);
    [by vm_compute | vm_compute; lia | reflexivity |].
  exists w'. split; [|split].
  - rewrite Hrun. by vm_compute.
  - rewrite Hparams. by vm_compute.
  - rewrite Hrows. by vm_compute.
Defined.

(** C4, as stated, fails: with source ids {1,2} and target ids {1,2,3} the
    first run already ends in MISMATCH. *)
Lemma idempotence_claim_fails_on_stale_row :
  ¬ idempotence_claim default_config FXTrade stale_world.
Proof.
  intros (w1 & w2 & Hrun1 & _). vm_compute in Hrun1. discriminate Hrun1.
Qed.

(** C4, amended.  Two runs in a row over an unchanged source.  Whenever the
    first run completes, the second run inserts nothing, leaves the target as
    the first run left it and returns the same result.  The first run
    completes when both stores can be reached, both tables can be queried and
    either nothing is missing or the batch size is positive and SQL Server
    accepts one parameter per missing id; with unique target keys the result
    of both runs is then CONVERGED exactly when the ids the target started
    with are all source ids, and MISMATCH on both runs otherwise. *)
Theorem sync_twice_is_idempotent cfg e w :
  (∀ b w1,
     sync cfg e w = (Ok b, w1) →
     ∃ w2,
       sync cfg e w1 = (Ok b, w2) ∧
       s002 w1 = s002 w ∧
       inserted_rows (events_since w1 w2) = [] ∧
       azure w2 = azure w1) ∧
  (∀ src tgt,
     sql_server_up w = true →
     postgres_up w = true →
     s002 w !! SOURCE_TABLE e = Some src →
     azure w !! TARGET_TABLE e = Some tgt →
     ids src ∖ ids tgt = ∅ ∨
       ((0 < BATCH_SIZE cfg)%Z ∧ size (ids src ∖ ids tgt) ≤ max_parameters w) →
     NoDup (keys tgt) →
     ∃ w1 w2,
       sync cfg e w = (Ok (bool_decide (ids tgt ⊆ ids src)), w1) ∧
       sync cfg e w1 = (Ok (bool_decide (ids tgt ⊆ ids src)), w2) ∧
       s002 w1 = s002 w ∧
       inserted_rows (events_since w1 w2) = [] ∧
       azure w2 = azure w1).
Proof.
  assert (∀ lim s a p h tr src tgt,
    s !! SOURCE_TABLE e = Some src →
    a !! TARGET_TABLE e = Some tgt →
    ∃ w2,
      sync cfg e
        (World lim s
           (if bool_decide (missing_of src tgt = ∅) then a
            else <[TARGET_TABLE e := target_after src tgt]> a) true true p h tr)
      = (Ok (verdict src (target_after src tgt)), w2) ∧
      inserted_rows
        (events_since
           (World lim s
              (if bool_decide (missing_of src tgt = ∅) then a
               else <[TARGET_TABLE e := target_after src tgt]> a) true true p h tr)
           w2) = [] ∧
      azure w2 = (if bool_decide (missing_of src tgt = ∅) then a
                  else <[TARGET_TABLE e := target_after src tgt]> a)) as Hagain.
  { intros lim s a p h tr src tgt Hs Ha.
    pose proof (azure_after_lookup e a src tgt Ha) as Ha1.
    pose proof (missing_of_target_after src tgt) as Hmiss.
    rewrite (sync_ok cfg e lim s _ p h tr src (target_after src tgt)) by auto.
    rewrite target_after_fixpoint, bool_decide_eq_true_2 by done.
    eexists. split; [reflexivity|].
    rewrite events_since_app.
    unfold body_events, transfer_events. rewrite bool_decide_eq_true_2 by done.
    split; reflexivity. }
  destruct w as [lim s a su pu p h tr]. split.
  - intros b w1 Hrun.
    destruct (sync_paths cfg e lim s a su pu p h tr)
      as (r & a' & p' & h' & evs & Hrun' & _ & Hcases).
    rewrite Hrun in Hrun'. simplify_eq.
    destruct Hcases as [(ex & Hr & _)|(src & tgt & Hs & Ha & -> & -> & Hr & ->)];
      [discriminate Hr|].
    simplify_eq.
    destruct (Hagain lim s a p' h' (tr ++ evs) src tgt Hs Ha) as (w2 & H2 & Hins & Haz).
    exists w2. by repeat split.
  - intros src tgt Hsu Hpu Hs Ha Hfit Hnd. cbn in Hsu, Hpu, Hs, Ha, Hfit. subst su pu.
    rewrite (sync_ok cfg e lim s a p h tr src tgt) by done.
    rewrite <- (verdict_target_after src tgt) by done.
    destruct (Hagain lim s a ∅ h
                (tr ++ [Log (SYNCING e); Connect SqlConn; Connect PgConn]
                    ++ body_events cfg e src tgt ++ finally_events) src tgt Hs Ha)
      as (w2 & H2 & Hins & Haz).
    eexists _, w2. split; [reflexivity|]. by repeat split.
Qed.

Lemma sync_twice_is_idempotent_witness :
  ∃ w1 w2,
    sync default_config FXTrade five_world = (Ok true, w1) ∧
    sync default_config FXTrade w1 = (Ok true, w2) ∧
    s002 w1 = s002 five_world ∧
    inserted_rows (events_since w1 w2) = [] ∧
    azure w2 = azure w1.
Proof.
  apply (proj2 (sync_twice_is_idempotent default_config FXTrade five_world)
           [trade 5; trade 1; trade 4; trade 2; trade 3] [trade 1; trade 3]).
  - reflexivity.
  - reflexivity.
  - vm_compute. reflexivity.
  - vm_compute. reflexivity.
  - right. split; [reflexivity|]. vm_compute. lia.
  - apply (bool_decide_unpack _). vm_compute. exact I.
Defined.

(** C5. The result of [sync] is the comparison of the row count of the
    target table after the run with the size of the source id set, not a
    comparison of the id sets: every run that returns, returns that
    comparison, and a run returns when both stores can be reached, both tables
    can be queried and either nothing is missing or the batch size is positive
    and SQL Server accepts one parameter per missing id.  With source ids
    {1,2} and target ids {1,2,3} nothing is inserted, the target is left as it
    was, the run reports MISMATCH (expected 2, got 3) and returns False, for
    either entity type and any batch size, although every source id is in the
    target. *)
Theorem convergence_compares_row_counts :
  (∀ cfg e w b w',
     sync cfg e w = (Ok b, w') →
     ∃ src tgt',
       s002 w !! SOURCE_TABLE e = Some src ∧
       azure w' !! TARGET_TABLE e = Some tgt' ∧
       b = Nat.eqb (length tgt') (size (ids src))) ∧
  (∀ cfg e w src tgt,
     sql_server_up w = true →
     postgres_up w = true →
     s002 w !! SOURCE_TABLE e = Some src →
     azure w !! TARGET_TABLE e = Some tgt →
     ids src ∖ ids tgt = ∅ ∨
       ((0 < BATCH_SIZE cfg)%Z ∧ size (ids src ∖ ids tgt) ≤ max_parameters w) →
     ∃ w' tgt',
       sync cfg e w = (Ok (Nat.eqb (length tgt') (size (ids src))), w') ∧
       azure w' !! TARGET_TABLE e = Some tgt') ∧
  (∀ cfg e,
     ∃ w',
       sync cfg e stale_world = (Ok false, w') ∧
       inserted_rows (events_since stale_world w') = [] ∧
       azure w' = azure stale_world ∧
       azure w' !! TARGET_TABLE e = Some [trade 1; trade 2; trade 3] ∧
       In (Log (MISMATCH 2 3)) (trace w') ∧
       ids [trade 1; trade 2] ⊆ ids [trade 1; trade 2; trade 3]).
Proof.
  split; [|split].
  - intros cfg e [lim s a su pu p h tr] b w' Hrun.
    destruct (sync_paths cfg e lim s a su pu p h tr)
      as (r & a' & p' & h' & evs & Hrun' & _ & Hcases).
    rewrite Hrun in Hrun'. simplify_eq.
    destruct Hcases as [(ex & Hr & _)|(src & tgt & Hs & Ha & _ & _ & Hr & ->)];
      [discriminate Hr|].
    simplify_eq. exists src, (target_after src tgt).
    split; [done|]. split; [by apply azure_after_lookup|done].
  - intros cfg e [lim s a su pu p h tr] src tgt Hsu Hpu Hs Ha Hfit.
    cbn in Hsu, Hpu, Hs, Ha, Hfit. subst su pu.
    rewrite (sync_ok cfg e lim s a p h tr src tgt) by done.
    eexists _, (target_after src tgt). split; [reflexivity|].
    by apply azure_after_lookup.
  - intros cfg e.
    destruct e; eexists; (split; [vm_compute; reflexivity|]);
      do 3 (split; [vm_compute; reflexivity|]);
      (split; [vm_compute; repeat (first [left; reflexivity | right])|]);
      apply (bool_decide_unpack _); vm_compute; exact I.
Qed.

Lemma convergence_compares_row_counts_witness :
  ∃ w' tgt',
    sync default_config FXTrade five_world
      = (Ok (Nat.eqb (length tgt')
               (size (ids [trade 5; trade 1; trade 4; trade 2; trade 3]))), w') ∧
    azure w' !! TARGET_TABLE FXTrade = Some tgt'.
Proof.
  apply (proj1 (proj2 convergence_compares_row_counts) default_config FXTrade
           five_world [trade 5; trade 1; trade 4; trade 2; trade 3] [trade 1; trade 3]).
  - reflexivity.
  - reflexivity.
  - vm_compute. reflexivity.
  - vm_compute. reflexivity.
  - right. split; [reflexivity|]. vm_compute. lia.
Defined.

(** C6, as stated, fails: the batch size is any integer, and with a batch
    size of 0 and one missing row (batch_size + 1 rows) the insert is rejected
    and the target keeps one row, while with the default batch size the row
    is inserted. *)
Lemma chunking_claim_fails_on_zero_batch_size :
  ¬ chunking_claim {| BATCH_SIZE := 0 |} default_config FXTrade one_missing_world.
Proof.
  intros Hclaim.
  apply (f_equal (λ m : gmap string (list record), m !! TARGET_TABLE FXTrade)) in Hclaim.
  vm_compute in Hclaim. discriminate Hclaim.
Qed.

(** C6, amended.  Among positive batch sizes the batch size has no effect on
    what a run does to the stores: for any two positive batch sizes, [sync]
    returns the same result and leaves the same source, target, transaction
    and handles (only the page boundaries in the trace differ), and the table
    that [insert_records] leaves is the one a single execution of all the
    INSERT statements leaves.  This covers record lists of every length, 0, 1,
    batch_size - 1, batch_size and batch_size + 1 among them. *)
Theorem batch_size_is_transparent cfg1 cfg2 e w :
  (0 < BATCH_SIZE cfg1)%Z →
  (0 < BATCH_SIZE cfg2)%Z →
  fst (sync cfg1 e w) = fst (sync cfg2 e w) ∧
  same_state (snd (sync cfg1 e w)) (snd (sync cfg2 e w)) ∧
  (∀ records t,
     pg_txn w !! TARGET_TABLE e = Some t →
     ∃ t',
       pg_insert_all DO_NOTHING t records = Ok t' ∧
       fst (insert_records cfg1 e records w) = Ok (length records) ∧
       pg_txn (snd (insert_records cfg1 e records w)) !! TARGET_TABLE e = Some t' ∧
       pg_txn (snd (insert_records cfg2 e records w)) !! TARGET_TABLE e = Some t').
Proof.
  intros Hn1 Hn2. destruct w as [lim s a su pu p h tr].
  assert (fst (sync cfg1 e (World lim s a su pu p h tr))
            = fst (sync cfg2 e (World lim s a su pu p h tr)) ∧
          same_state (snd (sync cfg1 e (World lim s a su pu p h tr)))
                     (snd (sync cfg2 e (World lim s a su pu p h tr)))) as Hsync.
  { destruct su, pu; try (unfold sync; run; by repeat split).
    destruct (s !! SOURCE_TABLE e) as [src|] eqn:Hs;
      [destruct (a !! TARGET_TABLE e) as [tgt|] eqn:Ha|].
    - destruct (le_lt_dec (size (missing_of src tgt)) lim) as [Hlim|Hlim].
      + rewrite !(sync_ok _ e lim s a p h tr src tgt) by auto. by repeat split.
      + rewrite !(sync_too_many_parameters _ e lim s a p h tr src tgt) by done.
        by repeat split.
    - unfold sync, sync_body. run. rewrite Hs, Ha. run. by repeat split.
    - unfold sync, sync_body. run. rewrite Hs. run. by repeat split. }
  destruct Hsync as [Hres Hstate]. split; [done|]. split; [done|].
  intros records t Ht. cbn [pg_txn] in Ht. exists (load t records).
  rewrite pg_insert_all_do_nothing.
  rewrite !(insert_records_ok _ e records lim s a su pu p h tr t) by done.
  cbn [fst snd pg_txn]. rewrite lookup_insert_eq. done.
Qed.

Lemma batch_size_is_transparent_witness :
  fst (sync {| BATCH_SIZE := 2 |} FXTrade five_world)
    = fst (sync default_config FXTrade five_world) ∧
  azure (snd (sync {| BATCH_SIZE := 2 |} FXTrade five_world))
    = azure (snd (sync default_config FXTrade five_world)).
Proof.
  destruct (batch_size_is_transparent {| BATCH_SIZE := 2 |} default_config
              FXTrade five_world) as (Hres & Hstate & _).
  - reflexivity.
  - reflexivity.
  - split; [exact Hres|]. exact (proj1 (proj2 (proj2 Hstate))).
Defined.

(** C7, as stated, fails: for 2101 missing ids the one fetch query carries
    2101 parameters, above any limit of 2100. *)
Lemma fetch_exceeds_parameter_limit :
  ¬ fetch_within_limit 2100 FXTrade many_ids five_world.
Proof.
  assert (size many_ids = 2101) as Hsize.
  { unfold many_ids. rewrite size_list_to_set by apply NoDup_seqZ.
    by rewrite length_seqZ. }
  unfold fetch_within_limit.
  rewrite fetch_missing_records_events, bool_decide_eq_false_2.
  - cbn [fetch_params flat_map app]. intros Hlim.
    apply Forall_cons_1 in Hlim as [Hlim _].
    change (length (elements many_ids)) with (size many_ids) in Hlim. lia.
  - intros Hempty. rewrite Hempty, size_empty in Hsize. discriminate Hsize.
Qed.

(** C7, amended.  [fetch_missing_records] submits nothing for an empty set of
    ids and otherwise exactly one query, with one parameter per missing id;
    it is not split into chunks, so whatever the limit there is a set of
    missing ids whose query exceeds it. *)
Theorem fetch_is_a_single_query :
  (∀ e missing_ids w,
     events_since w (snd (fetch_missing_records e missing_ids w)) =
       (if bool_decide (missing_ids = ∅) then []
        else [Execute SqlCursor (SELECT_rows_IN (SOURCE_TABLE e) (elements missing_ids))])
     ∧ length (elements missing_ids) = size missing_ids) ∧
  (∀ limit e w, ∃ missing_ids, ¬ fetch_within_limit limit e missing_ids w).
Proof.
  pose proof fetch_missing_records_events as Hone.
  split; [intros; split; [apply Hone|done]|].
  intros limit e w. exists (list_to_set (seqZ 0 (Z.of_nat (S limit)))).
  assert (size (list_to_set (seqZ 0 (Z.of_nat (S limit))) : gset Z) = S limit) as Hsize.
  { rewrite size_list_to_set by apply NoDup_seqZ. rewrite length_seqZ. lia. }
  unfold fetch_within_limit. rewrite Hone, bool_decide_eq_false_2.
  - cbn [fetch_params flat_map app]. intros Hlim.
    apply Forall_cons_1 in Hlim as [Hlim _].
    unfold size, set_size in Hsize. simpl in Hsize. lia.
  - intros Hempty. rewrite Hempty, size_empty in Hsize. discriminate Hsize.
Qed.

Lemma fetch_is_a_single_query_witness :
  events_since five_world
    (snd (fetch_missing_records FXTrade {[2%Z; 4%Z; 5%Z]} five_world))
  = [Execute SqlCursor (SELECT_rows_IN (SOURCE_TABLE FXTrade) [5; 4; 2]%Z)].
Proof.
  rewrite (proj1 (proj1 fetch_is_a_single_query FXTrade {[2%Z; 4%Z; 5%Z]} five_world)).
  vm_compute. reflexivity.
Defined.

(** C8.  When the PostgreSQL connection cannot be opened after the SQL Server
    connection has been, [sync] raises before it enters its [try:] block: the
    SQL Server connection and its cursor are still open when [sync] is left,
    and no [close] was issued. *)
Theorem sync_leaks_source_connection cfg e w :
  sql_server_up w = true →
  postgres_up w = false →
  ∃ w',
    sync cfg e w = (Raise ConnectionError, w') ∧
    open_handles w' = SqlCursor :: SqlConn :: open_handles w ∧
    events_since w w' = [Log (SYNCING e); Connect SqlConn].
Proof.
  intros Hsu Hpu. destruct w as [lim s a su pu p h tr]. simpl in *. subst su pu.
  unfold sync. run. eexists. split; [reflexivity|]. split; [reflexivity|].
  rewrite <- app_assoc. apply events_since_app.
Qed.

Lemma sync_leaks_source_connection_witness :
  ∃ w',
    sync default_config FXTrade pg_down_world = (Raise ConnectionError, w') ∧
    open_handles w' = SqlCursor :: SqlConn :: open_handles pg_down_world ∧
    events_since pg_down_world w' = [Log (SYNCING FXTrade); Connect SqlConn].
Proof.
  apply (sync_leaks_source_connection default_config FXTrade pg_down_world).
  - reflexivity.
  - reflexivity.
Defined.

(** C9.  The exit status of [main] is 0 exactly when the FX trade sync
    returned True and the FX option sync that followed it returned True; it
    is 1 when either of them ended in MISMATCH or raised. *)
Theorem exit_status_reflects_outcomes cfg w :
  (fst (main cfg w) = 0%Z ↔
   ∃ w1 w2, sync cfg FXTrade w = (Ok true, w1) ∧
            sync cfg FXOptionTrade w1 = (Ok true, w2)) ∧
  (outcome_of (fst (sync cfg FXTrade w)) ≠ CONVERGED → fst (main cfg w) = 1%Z) ∧
  (∀ b w1, sync cfg FXTrade w = (Ok b, w1) →
           outcome_of (fst (sync cfg FXOptionTrade w1)) ≠ CONVERGED →
           fst (main cfg w) = 1%Z).
Proof.
  unfold main, bind, ret, logger.
  destruct (sync cfg FXTrade w) as [[b1|e1] w1] eqn:H1; cbn [fst snd outcome_of].
  - destruct (sync cfg FXOptionTrade w1) as [[b2|e2] w2] eqn:H2; cbn [fst snd].
    + split; [split|split].
      * intros Hexit. destruct b1, b2; try discriminate Hexit. by exists w1, w2.
      * intros (w1' & w2' & Heq1 & Heq2). simplify_eq. rewrite H2 in Heq2.
        by simplify_eq.
      * intros Hout. destruct b1; [done|]. done.
      * intros b w1' Heq Hout. simplify_eq. rewrite H2 in Hout.
        destruct b, b2; done.
    + split; [split|split].
      * discriminate.
      * intros (w1' & w2' & Heq1 & Heq2). simplify_eq. rewrite H2 in Heq2.
        discriminate Heq2.
      * done.
      * done.
  - split; [split|split].
    + discriminate.
    + intros (w1' & w2' & Heq1 & _). discriminate Heq1.
    + done.
    + intros b w1' Heq. discriminate Heq.
Qed.

Lemma exit_status_reflects_outcomes_witness :
  fst (main default_config stale_world) = 1%Z ∧
  fst (main default_config no_fx_table_world) = 1%Z.
Proof.
  split.
  - apply (proj1 (proj2 (exit_status_reflects_outcomes default_config stale_world))).
    vm_compute. discriminate.
  - apply (proj1 (proj2 (exit_status_reflects_outcomes default_config no_fx_table_world))).
    vm_compute. discriminate.
Defined.

(** C10. [insert_records] returns the number of records it was given; rows
    skipped by the conflict clause are counted all the same, so the count can
    exceed the number of rows the table grew by. *)
Theorem insert_records_counts_presented :
  (∀ cfg e records w t,
     (0 < BATCH_SIZE cfg)%Z →
     pg_txn w !! TARGET_TABLE e = Some t →
     fst (insert_records cfg e records w) = Ok (length records)) ∧
  (∃ cfg e records w t t',
     records ≠ [] ∧
     pg_txn w !! TARGET_TABLE e = Some t ∧
     fst (insert_records cfg e records w) = Ok (length records) ∧
     pg_txn (snd (insert_records cfg e records w)) !! TARGET_TABLE e = Some t' ∧
     length t' - length t < length records).
Proof.
  split.
  - intros cfg e records [lim s a su pu p h tr] t Hn Ht. simpl in Ht.
    by erewrite insert_records_ok.
  - exists default_config, FXTrade, [trade 1; trade 2; trade 3],
      (set_pg_txn (azure five_world) five_world), [trade 1; trade 3],
      [trade 1; trade 3; trade 2].
    split; [done|]. split; [by vm_compute|]. split; [by vm_compute|].
    split; [by vm_compute|]. simpl. lia.
Qed.

Lemma insert_records_counts_presented_witness :
  fst (insert_records default_config FXTrade [trade 1; trade 1]
         (set_pg_txn (azure five_world) five_world)) = Ok 2.
Proof.
  apply (proj1 insert_records_counts_presented default_config FXTrade
           [trade 1; trade 1] (set_pg_txn (azure five_world) five_world)
           [trade 1; trade 3]).
  - reflexivity.
  - vm_compute. reflexivity.
Defined.

(** * Further properties of the code *)

(** X1. No write-back.  Whatever the stores hold and however a run ends, [sync]
    and [main] leave the SQL Server tables as they were, and every statement
    they execute on the SQL Server cursor is a SELECT. *)
Theorem source_is_never_written cfg w :
  (∀ e, s002 (snd (sync cfg e w)) = s002 w ∧
        Forall is_select
          (source_statements (events_since w (snd (sync cfg e w))))) ∧
  s002 (snd (main cfg w)) = s002 w ∧
  Forall is_select (source_statements (events_since w (snd (main cfg w)))).
Proof.
  split.
  - intros e. split; [apply sync_keeps_flags|].
    destruct (sync_trace cfg e w) as (evs & Htr & Hsel).
    by rewrite (events_since_extends _ _ evs).
  - rewrite main_unfold.
    destruct (sync_trace cfg FXTrade w) as (evs1 & Htr1 & Hsel1).
    pose proof (sync_keeps_flags cfg FXTrade w) as (_ & _ & Hs1).
    destruct (sync cfg FXTrade w) as [[r1|ex1] w1]; cbn [snd] in *.
    + destruct (sync_trace cfg FXOptionTrade w1) as (evs2 & Htr2 & Hsel2).
      pose proof (sync_keeps_flags cfg FXOptionTrade w1) as (_ & _ & Hs2).
      destruct (sync cfg FXOptionTrade w1) as [[r2|ex2] w2]; cbn [snd] in *.
      * split; [cbn [s002 emit]; congruence|].
        erewrite events_since_extends.
        2: { cbn [trace emit]. rewrite Htr2, Htr1, <- !app_assoc. reflexivity. }
        rewrite !source_statements_app, !Forall_app. by repeat split.
      * split; [cbn [s002 emit]; congruence|].
        erewrite events_since_extends.
        2: { cbn [trace emit]. rewrite Htr2, Htr1, <- !app_assoc. reflexivity. }
        rewrite !source_statements_app, !Forall_app. by repeat split.
    + split; [cbn [s002 emit]; congruence|].
      erewrite events_since_extends.
      2: { cbn [trace emit]. rewrite Htr1, <- !app_assoc. reflexivity. }
      rewrite !source_statements_app, !Forall_app. by repeat split.
Qed.

(** X2. Entity types do not interfere: [sync] of one entity type leaves every
    committed target table other than its own exactly as it was, on every path. *)
Theorem sync_touches_only_its_table cfg e w tbl :
  tbl ≠ TARGET_TABLE e →
  azure (snd (sync cfg e w)) !! tbl = azure w !! tbl.
Proof.
  intros Hne. destruct w as [lim s a su pu p h tr].
  destruct (sync_paths cfg e lim s a su pu p h tr)
    as (r & a' & p' & h' & evs & Hrun & _ & Hcases).
  rewrite Hrun. cbn [snd azure].
  destruct Hcases as [(ex & _ & ->)|(src & tgt & _ & _ & _ & _ & _ & ->)]; [done|].
  case_bool_decide; [done|]. by rewrite lookup_insert_ne.
Qed.

Lemma sync_touches_only_its_table_witness :
  azure (snd (sync default_config FXTrade five_world)) !! TARGET_TABLE FXOptionTrade
  = azure five_world !! TARGET_TABLE FXOptionTrade.
Proof.
  apply (sync_touches_only_its_table default_config FXTrade five_world
           (TARGET_TABLE FXOptionTrade)).
  vm_compute. discriminate.
Defined.



(** X4. Convergence.  When the target table has unique keys and holds only
    ids of the source, a run with both stores reachable, a positive batch size
    and no more missing ids than SQL Server accepts as parameters returns
    True, and afterwards the target table holds exactly the source ids, each
    once. *)
Theorem sync_converges_from_subset cfg e w src tgt :
  (0 < BATCH_SIZE cfg)%Z →
  sql_server_up w = true →
  postgres_up w = true →
  s002 w !! SOURCE_TABLE e = Some src →
  azure w !! TARGET_TABLE e = Some tgt →
  size (ids src ∖ ids tgt) ≤ max_parameters w →
  NoDup (keys tgt) →
  ids tgt ⊆ ids src →
  ∃ w' tgt',
    sync cfg e w = (Ok true, w') ∧
    azure w' !! TARGET_TABLE e = Some tgt' ∧
    ids tgt' = ids src ∧
    NoDup (keys tgt') ∧
    length tgt' = size (ids src).
Proof.
  intros Hn Hsu Hpu Hs Ha Hlim Hnd Hsub.
  destruct w as [lim s a su pu p h tr]. cbn in Hsu, Hpu, Hs, Ha, Hlim. subst su pu.
  rewrite (sync_ok cfg e lim s a p h tr src tgt) by auto.
  rewrite verdict_target_after, bool_decide_eq_true_2 by done.
  eexists _, (target_after src tgt). split; [reflexivity|].
  split; [by apply azure_after_lookup|].
  assert (ids (target_after src tgt) = ids src) as Hids.
  { rewrite target_after_ids. set_solver. }
  split; [done|]. split; [by apply target_after_NoDup|].
  rewrite length_NoDup_keys by by apply target_after_NoDup. by rewrite Hids.
Qed.

Lemma sync_converges_from_subset_witness :
  ∃ w' tgt',
    sync default_config FXTrade five_world = (Ok true, w') ∧
    azure w' !! TARGET_TABLE FXTrade = Some tgt' ∧
    ids tgt' = ids [trade 5; trade 1; trade 4; trade 2; trade 3] ∧
    NoDup (keys tgt') ∧
    length tgt' = size (ids [trade 5; trade 1; trade 4; trade 2; trade 3]).
Proof.
  apply (sync_converges_from_subset default_config FXTrade five_world
           [trade 5; trade 1; trade 4; trade 2; trade 3] [trade 1; trade 3]).
  - reflexivity.
  - reflexivity.
  - reflexivity.
  - vm_compute. reflexivity.
  - vm_compute. reflexivity.
  - vm_compute. lia.
  - apply (bool_decide_unpack _). vm_compute. exact I.
  - apply (bool_decide_unpack _). vm_compute. exact I.
Defined.

(** X5. Insert-only, from the source only.  A run that returns leaves every
    row the target table had in its place and appends rows that are rows of
    the source table whose key the target did not hold. *)
Theorem sync_appends_source_rows cfg e w src tgt b w' :
  sync cfg e w = (Ok b, w') →
  s002 w !! SOURCE_TABLE e = Some src →
  azure w !! TARGET_TABLE e = Some tgt →
  ∃ new,
    azure w' !! TARGET_TABLE e = Some (tgt ++ new) ∧
    Forall (λ r, r ∈ src ∧ TradeId r ∉ keys tgt) new.
Proof.
  intros Hrun Hs Ha.
  destruct w as [lim s a su pu p h tr]. cbn in Hs, Ha.
  destruct (sync_paths cfg e lim s a su pu p h tr)
    as (r & a' & p' & h' & evs & Hrun' & _ & Hcases).
  rewrite Hrun in Hrun'. simplify_eq.
  destruct Hcases as [(ex & Hr & _)|(src' & tgt' & Hs' & Ha' & _ & _ & _ & ->)];
    [discriminate Hr|].
  simplify_eq.
  destruct (target_after_extends src tgt) as (new & Hnew & Hfrom).
  exists new. split; [|done].
  cbn [azure]. rewrite <- Hnew. by apply azure_after_lookup.
Qed.

Lemma sync_appends_source_rows_witness :
  ∃ new,
    azure (snd (sync default_config FXTrade five_world)) !! TARGET_TABLE FXTrade
    = Some ([trade 1; trade 3] ++ new) ∧
    Forall (λ r, r ∈ [trade 5; trade 1; trade 4; trade 2; trade 3]
                 ∧ TradeId r ∉ keys [trade 1; trade 3]) new.
Proof.
  apply (sync_appends_source_rows default_config FXTrade five_world
           [trade 5; trade 1; trade 4; trade 2; trade 3] [trade 1; trade 3]
           true (snd (sync default_config FXTrade five_world))).
  - vm_compute. reflexivity.
  - vm_compute. reflexivity.
  - vm_compute. reflexivity.
Defined.

(** X6. A whole run only ever appends.  However [main] ends, every committed
    target table that existed before the run still exists, starts with the
    rows it had, in their order, and keeps its keys unique if they were. *)
Theorem main_only_appends cfg w tbl t :
  azure w !! tbl = Some t →
  ∃ new, azure (snd (main cfg w)) !! tbl = Some (t ++ new) ∧
         (NoDup (keys t) → NoDup (keys (t ++ new))).
Proof.
  intros Ht. rewrite main_unfold.
  destruct (sync_extends_tables cfg FXTrade w tbl t Ht) as (new1 & H1 & Hnd1).
  destruct (sync cfg FXTrade w) as [[r1|ex1] w1]; cbn [snd] in *.
  - destruct (sync_extends_tables cfg FXOptionTrade w1 tbl _ H1) as (new2 & H2 & Hnd2).
    exists (new1 ++ new2). rewrite app_assoc.
    destruct (sync cfg FXOptionTrade w1) as [[r2|ex2] w2]; cbn [snd azure emit] in *;
      (split; [done|auto]).
  - exists new1. cbn [azure emit]. by split.
Qed.

Lemma main_only_appends_witness :
  ∃ new, azure (snd (main default_config five_world)) !! TARGET_TABLE FXTrade
         = Some ([trade 1; trade 3] ++ new) ∧
         (NoDup (keys [trade 1; trade 3]) → NoDup (keys ([trade 1; trade 3] ++ new))).
Proof.
  apply (main_only_appends default_config five_world (TARGET_TABLE FXTrade)
           [trade 1; trade 3]).
  vm_compute. reflexivity.
Defined.

(** X7. With both stores reachable no handle outlives a run: [sync] and [main]
    leave exactly the handles open that were open before, whichever query
    fails in between. *)
Theorem reachable_run_releases_handles cfg w :
  sql_server_up w = true →
  postgres_up w = true →
  (∀ e, open_handles (snd (sync cfg e w)) = open_handles w) ∧
  open_handles (snd (main cfg w)) = open_handles w.
Proof.
  intros Hsu Hpu. split; [intros e; by apply sync_releases_when_both_open|].
  rewrite main_unfold.
  pose proof (sync_releases_when_both_open cfg FXTrade w Hsu Hpu) as Hh1.
  pose proof (sync_keeps_flags cfg FXTrade w) as (Hsu1 & Hpu1 & _).
  destruct (sync cfg FXTrade w) as [[r1|ex1] w1]; cbn [snd] in *; [|done].
  rewrite Hsu in Hsu1. rewrite Hpu in Hpu1.
  pose proof (sync_releases_when_both_open cfg FXOptionTrade w1 Hsu1 Hpu1) as Hh2.
  destruct (sync cfg FXOptionTrade w1) as [[r2|ex2] w2]; cbn [snd open_handles emit] in *;
    congruence.
Qed.

Lemma reachable_run_releases_handles_witness :
  (∀ e, open_handles (snd (sync default_config e no_fx_table_world))
        = open_handles no_fx_table_world) ∧
  open_handles (snd (main default_config no_fx_table_world))
  = open_handles no_fx_table_world.
Proof.
  apply (reachable_run_releases_handles default_config no_fx_table_world).
  - reflexivity.
  - reflexivity.
Defined.

(** X8. Exit status 0 means the target mirrors the source.  When [main] ends
    with status 0, each entity type's target table, if its keys were unique
    before the run, held only source ids before the run and holds exactly the
    ids of its source table after it. *)
Theorem exit_zero_means_mirrored cfg w e src tgt :
  fst (main cfg w) = 0%Z →
  s002 w !! SOURCE_TABLE e = Some src →
  azure w !! TARGET_TABLE e = Some tgt →
  NoDup (keys tgt) →
  ids tgt ⊆ ids src ∧
  ∃ tgt', azure (snd (main cfg w)) !! TARGET_TABLE e = Some tgt' ∧
          ids tgt' = ids src ∧ NoDup (keys tgt').
Proof.
  intros Hexit Hs Ha Hnd. rewrite main_unfold in Hexit |- *.
  destruct w as [lim s a su pu p h tr]. cbn [s002 azure] in Hs, Ha.
  destruct (sync_paths cfg FXTrade lim s a su pu p h tr)
    as (r1 & a1 & p1 & h1 & evs1 & Hrun1 & _ & Hcases1).
  rewrite Hrun1 in Hexit |- *.
  destruct Hcases1 as [(ex & -> & _)|(src1 & tgt1 & Hs1 & Ha1 & -> & -> & -> & ->)];
    [discriminate Hexit|].
  set (a1 := if bool_decide (missing_of src1 tgt1 = ∅) then a
             else <[TARGET_TABLE FXTrade := target_after src1 tgt1]> a) in *.
  destruct (sync_paths cfg FXOptionTrade lim s a1 true true p1 h1 (tr ++ evs1))
    as (r2 & a2 & p2 & h2 & evs2 & Hrun2 & _ & Hcases2).
  rewrite Hrun2 in Hexit |- *.
  destruct Hcases2 as [(ex & -> & _)|(src2 & tgt2 & Hs2 & Ha2 & _ & _ & -> & ->)];
    [discriminate Hexit|].
  cbn [fst snd azure emit] in *.
  destruct (verdict src1 (target_after src1 tgt1)) eqn:Hv1; [|discriminate Hexit].
  destruct (verdict src2 (target_after src2 tgt2)) eqn:Hv2; [|discriminate Hexit].
  assert (TARGET_TABLE FXTrade ≠ TARGET_TABLE FXOptionTrade) as Hne by done.
  assert (a1 !! TARGET_TABLE FXTrade = Some (target_after src1 tgt1)) as Ha1'
    by by apply azure_after_lookup.
  assert (a1 !! TARGET_TABLE FXOptionTrade = a !! TARGET_TABLE FXOptionTrade) as Ha1o.
  { subst a1. case_bool_decide; [done|]. by rewrite lookup_insert_ne. }
  destruct e; simplify_eq.
  - rewrite verdict_target_after in Hv1 by done.
    apply bool_decide_eq_true_1 in Hv1. split; [done|].
    exists (target_after src tgt). split; [|split].
    + case_bool_decide; [done|]. by rewrite lookup_insert_ne.
    + rewrite target_after_ids. set_solver.
    + by apply target_after_NoDup.
  - rewrite Ha1o in Ha2. simplify_eq.
    rewrite verdict_target_after in Hv2 by done.
    apply bool_decide_eq_true_1 in Hv2. split; [done|].
    exists (target_after src tgt). split; [|split].
    + apply azure_after_lookup. by rewrite Ha1o.
    + rewrite target_after_ids. set_solver.
    + by apply target_after_NoDup.
Qed.

Lemma exit_zero_means_mirrored_witness :
  ids [trade 1; trade 3] ⊆ ids [trade 5; trade 1; trade 4; trade 2; trade 3] ∧
  ∃ tgt', azure (snd (main default_config five_world)) !! TARGET_TABLE FXTrade
          = Some tgt' ∧
          ids tgt' = ids [trade 5; trade 1; trade 4; trade 2; trade 3] ∧
          NoDup (keys tgt').
Proof.
  apply (exit_zero_means_mirrored default_config five_world FXTrade
           [trade 5; trade 1; trade 4; trade 2; trade 3] [trade 1; trade 3]).
  - vm_compute. reflexivity.
  - vm_compute. reflexivity.
  - vm_compute. reflexivity.
  - apply (bool_decide_unpack _). vm_compute. exact I.
Defined.

(** X9. Bounded pages.  With a positive batch size, [insert_records] hands the
    records to the target in pages that are never empty and never longer than
    BATCH_SIZE, and the pages put end to end are the records, in their order. *)
Theorem insert_pages_are_bounded cfg e records w t :
  (0 < BATCH_SIZE cfg)%Z →
  pg_txn w !! TARGET_TABLE e = Some t →
  let pages :=
    inserted_pages (events_since w (snd (insert_records cfg e records w))) in
  concat pages = records ∧
  Forall (λ page, 0 < length page ∧ (Z.of_nat (length page) ≤ BATCH_SIZE cfg)%Z) pages.
Proof.
  intros Hn Ht. destruct w as [lim s a su pu p h tr]. cbn [pg_txn] in Ht.
  rewrite (insert_records_ok cfg e records lim s a su pu p h tr t) by done.
  cbn [snd]. rewrite events_since_app.
  assert (∀ tbl pages, inserted_pages (page_events tbl pages) = pages) as Hpages.
  { intros tbl pages. induction pages as [|page pages IH]; [done|].
    cbn. f_equal. exact IH. }
  rewrite Hpages. split; [apply concat_paginate; lia|].
  eapply Forall_impl; [apply (paginate_pages records (Z.to_nat (BATCH_SIZE cfg))); lia|].
  intros page [Hpos Hle]. split; [done|]. lia.
Qed.

Lemma insert_pages_are_bounded_witness :
  let pages :=
    inserted_pages
      (events_since (set_pg_txn (azure five_world) five_world)
         (snd (insert_records {| BATCH_SIZE := 2 |} FXTrade
                 [trade 2; trade 4; trade 5]
                 (set_pg_txn (azure five_world) five_world)))) in
  concat pages = [trade 2; trade 4; trade 5] ∧
  Forall (λ page, 0 < length page ∧ (Z.of_nat (length page) ≤ 2)%Z) pages.
Proof.
  apply (insert_pages_are_bounded {| BATCH_SIZE := 2 |} FXTrade
           [trade 2; trade 4; trade 5]
           (set_pg_txn (azure five_world) five_world) [trade 1; trade 3]).
  - reflexivity.
  - vm_compute. reflexivity.
Defined.

(** X10. The order of the entity types does not matter.  In every world and
    for every configuration, each entity type's sync returns the same result
    whether it runs first or after the other entity type's sync, and syncing
    FX trades and then FX options leaves the same source and the same
    committed target as syncing FX options and then FX trades. *)
Theorem entity_syncs_commute cfg w :
  let w1 := snd (sync cfg FXTrade w) in
  let w2 := snd (sync cfg FXOptionTrade w) in
  fst (sync cfg FXOptionTrade w1) = fst (sync cfg FXOptionTrade w) ∧
  fst (sync cfg FXTrade w2) = fst (sync cfg FXTrade w) ∧
  azure (snd (sync cfg FXOptionTrade w1)) = azure (snd (sync cfg FXTrade w2)) ∧
  s002 (snd (sync cfg FXOptionTrade w1)) = s002 (snd (sync cfg FXTrade w2)).
Proof.
  intros w1 w2.
  assert (TARGET_TABLE FXTrade ≠ TARGET_TABLE FXOptionTrade) as Hne by done.
  pose proof (sync_keeps_flags cfg FXTrade w) as (Hsu1 & Hpu1 & Hs1).
  pose proof (sync_keeps_flags cfg FXOptionTrade w) as (Hsu2 & Hpu2 & Hs2).
  pose proof (sync_keeps_limit cfg FXTrade w) as Hlim1.
  pose proof (sync_keeps_limit cfg FXOptionTrade w) as Hlim2.
  fold w1 in Hsu1, Hpu1, Hs1, Hlim1. fold w2 in Hsu2, Hpu2, Hs2, Hlim2.
  assert (azure w1 !! TARGET_TABLE FXOptionTrade = azure w !! TARGET_TABLE FXOptionTrade)
    as Hopt by (apply sync_other_tables; done).
  assert (azure w2 !! TARGET_TABLE FXTrade = azure w !! TARGET_TABLE FXTrade)
    as Hfx by (apply sync_other_tables; done).
  destruct (sync_depends_on_own_table cfg FXOptionTrade w1 w) as [Hr12 Ht12]; try done.
  destruct (sync_depends_on_own_table cfg FXTrade w2 w) as [Hr21 Ht21]; try done.
  split; [done|]. split; [done|]. split.
  - apply map_eq. intros tbl.
    destruct (decide (tbl = TARGET_TABLE FXTrade)) as [->|Hfx'];
      [|destruct (decide (tbl = TARGET_TABLE FXOptionTrade)) as [->|Hopt']].
    + rewrite sync_other_tables by done. by rewrite Ht21.
    + rewrite Ht12. by rewrite (sync_other_tables cfg FXTrade w2) by done.
    + rewrite !sync_other_tables by done. fold w1 w2.
      unfold w1, w2. by rewrite !sync_other_tables by done.
  - pose proof (sync_keeps_flags cfg FXOptionTrade w1) as (_ & _ & Hs12).
    pose proof (sync_keeps_flags cfg FXTrade w2) as (_ & _ & Hs21).
    congruence.
Qed.

(** X11. The connectivity tests never raise.  [test_sql_server] returns True
    exactly when SQL Server is reachable and both source tables can be
    counted, [test_postgres] exactly when PostgreSQL is reachable and both
    target tables can be counted; they return False otherwise, and leave the
    tables of both stores as they were. *)
Theorem connection_tests_report_readiness w :
  (∃ b w', test_sql_server w = (Ok b, w') ∧
           (b = true ↔ sql_server_ready w) ∧
           s002 w' = s002 w ∧ azure w' = azure w) ∧
  (∃ b w', test_postgres w = (Ok b, w') ∧
           (b = true ↔ postgres_ready w) ∧
           s002 w' = s002 w ∧ azure w' = azure w).
Proof.
  destruct w as [lim s a su pu p h tr]. split.
  - destruct (test_sql_server_paths lim s a su pu p h tr) as (b & h' & evs & Hrun & Hb & _).
    exists b. eexists. by rewrite Hrun.
  - destruct (test_postgres_paths lim s a su pu p h tr) as (b & p' & h' & evs & Hrun & Hb & _).
    exists b. eexists. by rewrite Hrun.
Qed.

(** X12. The connectivity tests close their connection on the success path
    only.  A test that connects and then fails on a count returns False with
    its connection and cursor still open; a test that passes, or that cannot
    connect at all, leaves the open handles as they were. *)
Theorem failed_connection_test_keeps_connection_open w :
  (sql_server_up w = true → ¬ sql_server_ready w →
   open_handles (snd (test_sql_server w)) = SqlCursor :: SqlConn :: open_handles w) ∧
  (sql_server_ready w ∨ sql_server_up w = false →
   open_handles (snd (test_sql_server w)) = open_handles w) ∧
  (postgres_up w = true → ¬ postgres_ready w →
   open_handles (snd (test_postgres w)) = PgCursor :: PgConn :: open_handles w) ∧
  (postgres_ready w ∨ postgres_up w = false →
   open_handles (snd (test_postgres w)) = open_handles w).
Proof.
  destruct w as [lim s a su pu p h tr].
  destruct (test_sql_server_paths lim s a su pu p h tr)
    as (b1 & h1 & evs1 & Hrun1 & Hb1 & ->).
  destruct (test_postgres_paths lim s a su pu p h tr)
    as (b2 & p2 & h2 & evs2 & Hrun2 & Hb2 & ->).
  rewrite Hrun1, Hrun2. cbn [snd open_handles sql_server_up postgres_up].
  split; [|split; [|split]].
  - intros -> Hnot. destruct b1; [|done]. destruct Hnot. by apply Hb1.
  - intros [Hready| ->]; [|done]. apply Hb1 in Hready as ->. by destruct su.
  - intros -> Hnot. destruct b2; [|done]. destruct Hnot. by apply Hb2.
  - intros [Hready| ->]; [|done]. apply Hb2 in Hready as ->. by destruct pu.
Qed.

Lemma failed_connection_test_keeps_connection_open_witness :
  open_handles (snd (test_postgres no_fx_table_world))
  = PgCursor :: PgConn :: open_handles no_fx_table_world ∧
  open_handles (snd (test_sql_server no_fx_table_world))
  = open_handles no_fx_table_world.
Proof.
  split.
  - apply (proj1 (proj2 (proj2
             (failed_connection_test_keeps_connection_open no_fx_table_world)))).
    + reflexivity.
    + intros (_ & [t Ht] & _). vm_compute in Ht. discriminate Ht.
  - apply (proj1 (proj2
             (failed_connection_test_keeps_connection_open no_fx_table_world))).
    left. vm_compute. split; [reflexivity|]. split; eexists; reflexivity.
Defined.

(** X13. The connectivity script exits with status 0 exactly when both stores
    are reachable and all four tables can be counted, and with status 1
    otherwise; the second test is run whatever the first one returned. *)
Theorem connection_script_exit_status w :
  (fst (test_connection_main w) = 0%Z ↔ sql_server_ready w ∧ postgres_ready w) ∧
  (fst (test_connection_main w) = 0%Z ∨ fst (test_connection_main w) = 1%Z) ∧
  ∃ b1 w1 b2 w2,
    test_sql_server w = (Ok b1, w1) ∧ test_postgres w1 = (Ok b2, w2) ∧
    snd (test_connection_main w) = w2.
Proof.
  destruct w as [lim s a su pu p h tr].
  destruct (test_sql_server_paths lim s a su pu p h tr)
    as (b1 & h1 & evs1 & Hrun1 & Hb1 & _).
  destruct (test_postgres_paths lim s a su pu p h1 (tr ++ evs1))
    as (b2 & p2 & h2 & evs2 & Hrun2 & Hb2 & _).
  unfold test_connection_main, bind, ret. rewrite Hrun1, Hrun2.
  unfold postgres_ready, sql_server_ready in *. cbn [postgres_up azure sql_server_up s002] in *.
  split; [|split].
  - destruct b1, b2; cbn [fst andb]; split; try done.
    + intros _. split; [by apply Hb1|by apply Hb2].
    + intros [_ H2]. apply Hb2 in H2. discriminate H2.
    + intros [H1 _]. apply Hb1 in H1. discriminate H1.
    + intros [H1 _]. apply Hb1 in H1. discriminate H1.
  - destruct b1, b2; cbn; auto.
  - exists b1. eexists. exists b2. eexists. split; [reflexivity|]. split; [exact Hrun2|].
    by destruct b1, b2.
Qed.
